(** * Verification of [create_1c_xml.py]

    The script reads up to three text files, assembles a module text from
    them, renders a fixed XML document around it and prints a three-line
    summary.  This development embeds the script in Rocq and proves the
    properties of its specification against the embedding.

    Python's [str] is a sequence of Unicode code points; it is modelled as a
    list of code points, so that [len], [find], slicing and [replace] count
    and index exactly as Python does, also on the Cyrillic literals of the
    script. *)

From Stdlib Require Import Ascii String DecimalString.
From Stdlib Require Import List NArith ZArith Lia Bool.
Import ListNotations.

(** ** Python strings *)

Abbreviation char := N (only parsing).
Abbreviation str := (list N) (only parsing).

(** An ASCII literal of the script, as code points. *)
Definition lit (s : string) : str := map N_of_ascii (list_ascii_of_string s).

Definition nl : str := [10%N].
Definition tab : str := [9%N].
Definition dq : str := [34%N].

Module PyStr.

(** [s.startswith(sub)] *)
Fixpoint starts_with (sub s : str) : bool :=
  match sub, s with
  | [], _ => true
  | _ :: _, [] => false
  | a :: sub', b :: s' => (a =? b)%N && starts_with sub' s'
  end.

(** Left-to-right scan of [str.replace] for a non-empty [old]: at each
    position not covered by a previous match, a match of [old] emits [new]
    and covers [len(old)] characters. *)
Fixpoint replace_scan (old new : str) (skip : nat) (s : str) : str :=
  match s with
  | [] => []
  | c :: tl =>
      match skip with
      | S k => replace_scan old new k tl
      | O =>
          if starts_with old s
          then new ++ replace_scan old new (length old - 1) tl
          else c :: replace_scan old new 0 tl
      end
  end.

(** [s.replace(old, new)]: every non-overlapping occurrence, leftmost
    first; an empty [old] matches before every character and at the end. *)
Definition replace (s old new : str) : str :=
  match old with
  | [] => new ++ flat_map (fun c => c :: new) s
  | _ :: _ => replace_scan old new 0 s
  end.

(** Scan of [str.find]: the lowest position, counted from [i], at which
    [sub] starts. *)
Fixpoint find_scan (sub s : str) (i : nat) : option nat :=
  if starts_with sub s then Some i
  else match s with
       | [] => None
       | _ :: tl => find_scan sub tl (S i)
       end.

(** A slice bound as Python normalises it: a negative bound counts from
    the end, and the result is clamped to [0 .. len]. *)
Definition clamp (n i : Z) : Z :=
  if (i <? 0)%Z then Z.max 0 (i + n) else Z.min i n.

(** [s.find(sub, start)]: the lowest index [>= start] where [sub] occurs,
    [-1] when there is none. *)
Definition find (s sub : str) (start : Z) : Z :=
  let n := Z.of_nat (length s) in
  let st := if (start <? 0)%Z then Z.max 0 (start + n) else start in
  if (st >? n)%Z then (-1)%Z
  else match find_scan sub (skipn (Z.to_nat st) s) (Z.to_nat st) with
       | Some i => Z.of_nat i
       | None => (-1)%Z
       end.

(** [s[a:b]] *)
Definition slice (s : str) (a b : Z) : str :=
  let n := Z.of_nat (length s) in
  skipn (Z.to_nat (clamp n a)) (firstn (Z.to_nat (clamp n b)) s).

(** [c.upper()] on the ASCII range, the only range [upper] is applied to
    in the script (the characters of a formatted UUID). *)
Definition upper_char (c : char) : char :=
  if ((97 <=? c) && (c <=? 122))%N then (c - 32)%N else c.

Definition upper (s : str) : str := map upper_char s.

(** [str(n)] for a non-negative integer. *)
Definition str_of_nat (n : nat) : str :=
  lit (NilEmpty.string_of_uint (Nat.to_uint n)).

(** Hexadecimal digit of a value below 16, lower case as [%x] prints. *)
Definition hex_digit (d : N) : char :=
  if (d <? 10)%N then (48 + d)%N else (87 + d)%N.

Fixpoint hex_scan (fuel : nat) (n : N) (acc : str) : str :=
  match fuel with
  | O => acc
  | S f =>
      let acc' := hex_digit (n mod 16) :: acc in
      if (n / 16 =? 0)%N then acc' else hex_scan f (n / 16)%N acc'
  end.

(** ['%x' % n]; the number of bits of [n] bounds the number of digits. *)
Definition to_hex (n : N) : str := hex_scan (S (N.to_nat (N.size n))) n [].

(** ['%032x' % n]: zero-padded on the left to width 32. *)
Definition format_032x (n : N) : str :=
  let h := to_hex n in
  repeat 48%N (32 - length h) ++ h.

Definition eqb (a b : str) : bool :=
  if list_eq_dec N.eq_dec a b then true else false.

End PyStr.

(** ** [escape_xml] *)

Definition escape_xml (text : str) : str :=
  let text := PyStr.replace text (lit "&") (lit "&amp;") in
  let text := PyStr.replace text (lit "<") (lit "&lt;") in
  let text := PyStr.replace text (lit ">") (lit "&gt;") in
  text.

(** ** Python's [uuid] module, as far as the script uses it *)

Module PyUuid.

(** [uuid.uuid4()] builds the identifier from sixteen random bytes read as
    one big-endian integer [r], then forces the variant bits to [10] and
    the version nibble to [4]. *)
Definition uuid4 (r : N) : N :=
  let int := r in
  let int := N.ldiff int (N.shiftl 49152 48) in
  let int := N.lor int (N.shiftl 32768 48) in
  let int := N.ldiff int (N.shiftl 61440 64) in
  let int := N.lor int (N.shiftl 4 76) in
  int.

(** [str(u)]: the 32 hexadecimal digits in groups of 8-4-4-4-12. *)
Definition to_str (u : N) : str :=
  let hex := PyStr.format_032x u in
  PyStr.slice hex 0 8 ++ lit "-" ++ PyStr.slice hex 8 12 ++ lit "-"
  ++ PyStr.slice hex 12 16 ++ lit "-" ++ PyStr.slice hex 16 20 ++ lit "-"
  ++ PyStr.slice hex 20 (Z.of_nat (length hex)).

End PyUuid.

(** ** The environment of a run, and the effects of the script *)

(** A surrogate code point.  A Python string may hold one alone (a file
    name with an undecodable byte does), and UTF-8 does not encode it. *)
Definition surrogate (c : char) : bool := ((55296 <=? c) && (c <=? 57343))%N.

(** [s.encode('utf-8')] succeeds. *)
Definition utf8_encodable (s : str) : bool :=
  forallb (fun c => negb (surrogate c)) s.

(** An exception, carrying the text [str(e)] shows.  The texts of the
    exceptions the script meets hold no lone surrogate: [OSError] shows the
    file name through [repr], which escapes one, and the messages of the
    UTF-8 decoder and encoder are ASCII. *)
Record exn : Type := mkExn {
  exn_text : str;
  exn_text_encodable : utf8_encodable exn_text = true
}.

(** The exception with the text [text] (with no text, should [text] hold a
    lone surrogate). *)
Definition Exn (text : str) : exn :=
  match utf8_encodable text as b return utf8_encodable text = b -> exn with
  | true => fun H => mkExn text H
  | false => fun _ => mkExn [] eq_refl
  end eq_refl.

(** What opening and reading a path gives: its decoded text, or the
    exception raised by [open], [read] or the UTF-8 decoder. *)
Inductive file : Type :=
| Content (text : str)
| Unreadable (e : exn).

Record World : Type := mkWorld {
  files : str -> file;
  (** the exception opening a path for writing raises, if any *)
  write_error : str -> option exn;
  (** the sixteen bytes [os.urandom] hands to [uuid4], as a big-endian
      number *)
  entropy : N;
  (** the lines printed so far, oldest first *)
  console : list str
}.

Inductive result (A : Type) : Type :=
| Ret (a : A)
| Raise (e : exn).
Arguments Ret {A} a.
Arguments Raise {A} e.

Definition IO (A : Type) : Type := World -> result A * World.

Definition ret {A} (a : A) : IO A := fun w => (Ret a, w).

Definition bind {A B} (c : IO A) (k : A -> IO B) : IO B :=
  fun w =>
    match c w with
    | (Ret a, w') => k a w'
    | (Raise e, w') => (Raise e, w')
    end.

(** [try: c  except Exception as e: h e] *)
Definition try_except {A} (c : IO A) (h : exn -> IO A) : IO A :=
  fun w =>
    match c w with
    | (Ret a, w') => (Ret a, w')
    | (Raise e, w') => h e w'
    end.

Declare Scope io_scope.
Delimit Scope io_scope with io.
Notation "x <- c ;; k" := (bind c (fun x => k))
  (at level 61, c at next level, right associativity) : io_scope.
Notation "c ;; k" := (bind c (fun _ => k))
  (at level 61, right associativity) : io_scope.
Open Scope io_scope.

(** The number of surrogates [s] begins with. *)
Fixpoint surrogate_run (s : str) : nat :=
  match s with
  | [] => O
  | c :: tl => if surrogate c then S (surrogate_run tl) else O
  end.

(** [str(e)] of the [UnicodeEncodeError] the UTF-8 encoder raises on [s],
    whose first surrogate is looked for from position [i] on: the error
    names the first run of surrogates. *)
Fixpoint encode_error_text (s : str) (i : nat) : str :=
  match s with
  | [] => []
  | c :: tl =>
      if surrogate c then
        lit "'utf-8' codec can't encode "
        ++ match surrogate_run tl with
           | O =>
               lit "character '\u" ++ PyStr.to_hex c ++ lit "' in position "
               ++ PyStr.str_of_nat i
           | S n =>
               lit "characters in position " ++ PyStr.str_of_nat i ++ lit "-"
               ++ PyStr.str_of_nat (i + S n)
           end
        ++ lit ": surrogates not allowed"
      else encode_error_text tl (S i)
  end.

Definition unicode_encode_error (line : str) : exn :=
  Exn (encode_error_text line 0).

(** [print(line)] to a UTF-8 console: the line is encoded whole before any
    of it is written, and a line that cannot be encoded raises
    [UnicodeEncodeError] and prints nothing. *)
Definition print (line : str) : IO unit :=
  fun w =>
    if utf8_encodable line
    then (Ret tt,
          mkWorld (files w) (write_error w) (entropy w) (console w ++ [line]))
    else (Raise (unicode_encode_error line), w).

(** [with open(path, 'r', encoding='utf-8') as f: f.read()] *)
Definition open_read (path : str) : IO str :=
  fun w =>
    match files w path with
    | Content text => (Ret text, w)
    | Unreadable e => (Raise e, w)
    end.

(** [with open(path, 'w', encoding='utf-8') as f: f.write(text)] *)
Definition open_write (path text : str) : IO unit :=
  fun w =>
    match write_error w path with
    | Some e => (Raise e, w)
    | None =>
        (Ret tt,
         mkWorld (fun p => if PyStr.eqb p path then Content text else files w p)
                 (write_error w) (entropy w) (console w))
    end.

(** [uuid.uuid4()] *)
Definition uuid4 : IO N := fun w => (Ret (PyUuid.uuid4 (entropy w)), w).

(** ** The literals of the script *)

Section Literals.

Local Open Scope N_scope.

(* "#Область ПрограммныйИнтерфейс" *)
Definition start_marker : str :=
  lit "#" ++ [1054; 1073; 1083; 1072; 1089; 1090; 1100] ++ lit " "
    ++ [1055; 1088; 1086; 1075; 1088; 1072; 1084; 1084; 1085; 1099; 1081; 1048; 1085; 1090; 1077; 1088; 1092; 1077; 1081; 1089].

(* "#КонецОбласти" *)
Definition end_marker : str :=
  lit "#" ++ [1050; 1086; 1085; 1077; 1094; 1054; 1073; 1083; 1072; 1089; 1090; 1080].

Definition module_path : str :=
  lit "1c_processing/Module/Module.bsl".

Definition extensions_path : str :=
  lit "1c_module_extensions.bsl".

Definition export_functions_path : str :=
  lit "1c_export_functions.txt".

Definition output_file : str :=
  lit "1c_processing_export.xml".

(* "Ошибка чтения файла " *)
Definition read_error_prefix : str :=
  [1054; 1096; 1080; 1073; 1082; 1072] ++ lit " " ++ [1095; 1090; 1077; 1085; 1080; 1103]
    ++ lit " " ++ [1092; 1072; 1081; 1083; 1072] ++ lit " ".

(* "XML файл обработки создан: " *)
Definition msg_created : str :=
  lit "XML " ++ [1092; 1072; 1081; 1083] ++ lit " "
    ++ [1086; 1073; 1088; 1072; 1073; 1086; 1090; 1082; 1080] ++ lit " "
    ++ [1089; 1086; 1079; 1076; 1072; 1085] ++ lit ": ".

(* "UUID обработки: " *)
Definition msg_uuid : str :=
  lit "UUID " ++ [1086; 1073; 1088; 1072; 1073; 1086; 1090; 1082; 1080] ++ lit ": ".

(* "Размер модуля: " *)
Definition msg_size : str :=
  [1056; 1072; 1079; 1084; 1077; 1088] ++ lit " " ++ [1084; 1086; 1076; 1091; 1083; 1103]
    ++ lit ": ".

(* " символов" *)
Definition msg_chars : str :=
  lit " " ++ [1089; 1080; 1084; 1074; 1086; 1083; 1086; 1074].

(* Template text up to the {processing_uuid} field. *)
Definition xml_prolog : str :=
  lit "<?xml version=" ++ dq ++ lit "1.0" ++ dq ++ lit " encoding=" ++ dq ++ lit "UTF-8" ++ dq
    ++ lit "?>" ++ nl
  ++ lit "<MetaDataObject xmlns=" ++ dq ++ lit "http://v8.1c.ru/8.3/MDClasses" ++ dq
    ++ lit " xmlns:app=" ++ dq ++ lit "http://v8.1c.ru/8.2/managed-application/core" ++ dq
    ++ lit " xmlns:cfg=" ++ dq ++ lit "http://v8.1c.ru/8.1/data/enterprise/current-config" ++ dq
    ++ lit " xmlns:cmi=" ++ dq ++ lit "http://v8.1c.ru/8.2/managed-application/cmi" ++ dq
    ++ lit " xmlns:ent=" ++ dq ++ lit "http://v8.1c.ru/8.1/data/enterprise/current-config" ++ dq
    ++ lit " xmlns:lf=" ++ dq ++ lit "http://v8.1c.ru/8.2/managed-application/logform" ++ dq
    ++ lit " xmlns:style=" ++ dq ++ lit "http://v8.1c.ru/8.1/data/ui/style" ++ dq
    ++ lit " xmlns:sys=" ++ dq ++ lit "http://v8.1c.ru/8.1/data/ui/fonts/system" ++ dq
    ++ lit " xmlns:v8=" ++ dq ++ lit "http://v8.1c.ru/8.1/data/core" ++ dq ++ lit " xmlns:v8ui="
    ++ dq ++ lit "http://v8.1c.ru/8.1/data/ui" ++ dq ++ lit " xmlns:web=" ++ dq
    ++ lit "http://v8.1c.ru/8.1/data/ui/colors/web" ++ dq ++ lit " xmlns:win=" ++ dq
    ++ lit "http://v8.1c.ru/8.1/data/ui/colors/windows" ++ dq ++ lit " xmlns:xen=" ++ dq
    ++ lit "http://v8.1c.ru/8.3/xcf/enums" ++ dq ++ lit " xmlns:xpr=" ++ dq
    ++ lit "http://v8.1c.ru/8.3/xcf/predef" ++ dq ++ lit " xmlns:xr=" ++ dq
    ++ lit "http://v8.1c.ru/8.3/xcf/readable" ++ dq ++ lit " xmlns:xs=" ++ dq
    ++ lit "http://www.w3.org/2001/XMLSchema" ++ dq ++ lit " xmlns:xsi=" ++ dq
    ++ lit "http://www.w3.org/2001/XMLSchema-instance" ++ dq ++ lit " version=" ++ dq
    ++ lit "2.12" ++ dq ++ lit ">" ++ nl
  ++ lit "  <DataProcessor>" ++ nl
  ++ lit "    <uuid>".

(* Template text between the {processing_uuid} field and the module CDATA opener. *)
Definition xml_object_header : str :=
  lit "</uuid>" ++ nl
  ++ lit "    <name>"
    ++ [1042; 1099; 1075; 1088; 1091; 1079; 1082; 1072; 1044; 1072; 1085; 1085; 1099; 1093; 1042; 1057; 1077; 1088; 1074; 1080; 1089]
    ++ lit "</name>" ++ nl
  ++ lit "    <synonym>" ++ nl
  ++ lit "      <key>ru</key>" ++ nl
  ++ lit "      <value>" ++ [1042; 1099; 1075; 1088; 1091; 1079; 1082; 1072] ++ lit " "
    ++ [1076; 1072; 1085; 1085; 1099; 1093] ++ lit " " ++ [1074] ++ lit " "
    ++ [1089; 1077; 1088; 1074; 1080; 1089] ++ lit " "
    ++ [1085; 1086; 1088; 1084; 1072; 1083; 1080; 1079; 1072; 1094; 1080; 1080]
    ++ lit "</value>" ++ nl
  ++ lit "    </synonym>" ++ nl
  ++ lit "    <comment>" ++ [1054; 1073; 1088; 1072; 1073; 1086; 1090; 1082; 1072] ++ lit " "
    ++ [1076; 1083; 1103] ++ lit " " ++ [1074; 1099; 1075; 1088; 1091; 1079; 1082; 1080]
    ++ lit " " ++ [1076; 1072; 1085; 1085; 1099; 1093] ++ lit " " ++ [1080; 1079] ++ lit " 1"
    ++ [1057] ++ lit " " ++ [1074] ++ lit " " ++ [1089; 1077; 1088; 1074; 1080; 1089] ++ lit " "
    ++ [1085; 1086; 1088; 1084; 1072; 1083; 1080; 1079; 1072; 1094; 1080; 1080] ++ lit " "
    ++ [1080] ++ lit " " ++ [1072; 1085; 1072; 1083; 1080; 1079; 1072] ++ lit " "
    ++ [1095; 1077; 1088; 1077; 1079] ++ lit " HTTP</comment>" ++ nl
  ++ lit "    <module>" ++ nl
  ++ lit "      <text>".

(* Template text after the module CDATA closer: the static form module. *)
Definition xml_form_section : str :=
  lit "</text>" ++ nl
  ++ lit "    </module>" ++ nl
  ++ lit "    <forms>" ++ nl
  ++ lit "      <form>" ++ nl
  ++ lit "        <name>" ++ [1060; 1086; 1088; 1084; 1072] ++ lit "</name>" ++ nl
  ++ lit "        <synonym>" ++ nl
  ++ lit "          <key>ru</key>" ++ nl
  ++ lit "          <value>" ++ [1060; 1086; 1088; 1084; 1072] ++ lit "</value>" ++ nl
  ++ lit "        </synonym>" ++ nl
  ++ lit "        <module>" ++ nl
  ++ lit "          <text><![CDATA[&" ++ [1053; 1072; 1050; 1083; 1080; 1077; 1085; 1090; 1077] ++ nl
  ++ [1055; 1088; 1086; 1094; 1077; 1076; 1091; 1088; 1072] ++ lit " "
    ++ [1055; 1088; 1080; 1057; 1086; 1079; 1076; 1072; 1085; 1080; 1080; 1053; 1072; 1057; 1077; 1088; 1074; 1077; 1088; 1077]
    ++ lit "(" ++ [1054; 1090; 1082; 1072; 1079] ++ lit ", "
    ++ [1057; 1090; 1072; 1085; 1076; 1072; 1088; 1090; 1085; 1072; 1103; 1054; 1073; 1088; 1072; 1073; 1086; 1090; 1082; 1072]
    ++ lit ")" ++ nl
  ++ tab ++ nl
  ++ tab ++ lit "// "
    ++ [1059; 1089; 1090; 1072; 1085; 1072; 1074; 1083; 1080; 1074; 1072; 1077; 1084] ++ lit " "
    ++ [1079; 1085; 1072; 1095; 1077; 1085; 1080; 1103] ++ lit " " ++ [1087; 1086] ++ lit " "
    ++ [1091; 1084; 1086; 1083; 1095; 1072; 1085; 1080; 1102] ++ nl
  ++ tab ++ [1045; 1089; 1083; 1080] ++ lit " " ++ [1054; 1073; 1098; 1077; 1082; 1090]
    ++ lit "." ++ [1040; 1076; 1088; 1077; 1089; 1057; 1077; 1088; 1074; 1077; 1088; 1072]
    ++ lit " = " ++ dq ++ dq ++ lit " " ++ [1058; 1086; 1075; 1076; 1072] ++ nl
  ++ tab ++ tab ++ [1054; 1073; 1098; 1077; 1082; 1090] ++ lit "."
    ++ [1040; 1076; 1088; 1077; 1089; 1057; 1077; 1088; 1074; 1077; 1088; 1072] ++ lit " = "
    ++ dq ++ lit "http://localhost:9999" ++ dq ++ lit ";" ++ nl
  ++ tab ++ [1050; 1086; 1085; 1077; 1094; 1045; 1089; 1083; 1080] ++ lit ";" ++ nl
  ++ tab ++ nl
  ++ tab ++ [1045; 1089; 1083; 1080] ++ lit " " ++ [1054; 1073; 1098; 1077; 1082; 1090]
    ++ lit "." ++ [1056; 1072; 1079; 1084; 1077; 1088; 1055; 1072; 1082; 1077; 1090; 1072]
    ++ lit " = 0 " ++ [1058; 1086; 1075; 1076; 1072] ++ nl
  ++ tab ++ tab ++ [1054; 1073; 1098; 1077; 1082; 1090] ++ lit "."
    ++ [1056; 1072; 1079; 1084; 1077; 1088; 1055; 1072; 1082; 1077; 1090; 1072] ++ lit " = 50;" ++ nl
  ++ tab ++ [1050; 1086; 1085; 1077; 1094; 1045; 1089; 1083; 1080] ++ lit ";" ++ nl
  ++ tab ++ nl
  ++ tab ++ [1045; 1089; 1083; 1080] ++ lit " " ++ [1054; 1073; 1098; 1077; 1082; 1090]
    ++ lit "."
    ++ [1048; 1089; 1087; 1086; 1083; 1100; 1079; 1086; 1074; 1072; 1090; 1100; 1055; 1072; 1082; 1077; 1090; 1085; 1091; 1102; 1042; 1099; 1075; 1088; 1091; 1079; 1082; 1091]
    ++ lit " = " ++ [1053; 1077; 1086; 1087; 1088; 1077; 1076; 1077; 1083; 1077; 1085; 1086]
    ++ lit " " ++ [1058; 1086; 1075; 1076; 1072] ++ nl
  ++ tab ++ tab ++ [1054; 1073; 1098; 1077; 1082; 1090] ++ lit "."
    ++ [1048; 1089; 1087; 1086; 1083; 1100; 1079; 1086; 1074; 1072; 1090; 1100; 1055; 1072; 1082; 1077; 1090; 1085; 1091; 1102; 1042; 1099; 1075; 1088; 1091; 1079; 1082; 1091]
    ++ lit " = " ++ [1048; 1089; 1090; 1080; 1085; 1072] ++ lit ";" ++ nl
  ++ tab ++ [1050; 1086; 1085; 1077; 1094; 1045; 1089; 1083; 1080] ++ lit ";" ++ nl
  ++ tab ++ nl
  ++ [1050; 1086; 1085; 1077; 1094; 1055; 1088; 1086; 1094; 1077; 1076; 1091; 1088; 1099]
    ++ lit "]]></text>" ++ nl
  ++ lit "        </module>" ++ nl
  ++ lit "      </form>" ++ nl
  ++ lit "    </forms>" ++ nl
  ++ lit "  </DataProcessor>" ++ nl
  ++ lit "</MetaDataObject>".

End Literals.

Definition cdata_open : str := lit "<![CDATA[".
Definition cdata_close : str := lit "]]>".

(** ** The script *)

Definition read_file_content (filepath : str) : IO str :=
  try_except
    (open_read filepath)
    (fun e =>
       print (read_error_prefix ++ filepath ++ lit ": " ++ exn_text e) ;;
       ret []).

(** Truth value of a string in a condition: non-empty. *)
Definition truthy (s : str) : bool :=
  match s with [] => false | _ :: _ => true end.

Definition len (s : str) : Z := Z.of_nat (length s).

(** Lines 47-56: the value bound to [program_interface_code], when the
    three nested conditions let the assignment run. *)
Definition program_interface_code (export_functions_code : str) : option str :=
  if truthy export_functions_code then
    let start_pos := PyStr.find export_functions_code start_marker 0 in
    if (start_pos >=? 0)%Z then
      let end_pos :=
        PyStr.find export_functions_code end_marker (start_pos + len start_marker) in
      if (end_pos >=? 0)%Z then
        Some (PyStr.slice export_functions_code start_pos (end_pos + len end_marker))
      else None
    else None
  else None.

(** The value of the variable [full_module_code] after lines 43-61, from
    the three texts read. *)
Definition full_module_code (module_code export_functions_code extensions_code : str) : str :=
  let full := module_code in
  let full :=
    match program_interface_code export_functions_code with
    | Some code => full ++ ((nl ++ nl) ++ code)
    | None => full
    end in
  let full :=
    if truthy extensions_code then full ++ ((nl ++ nl) ++ extensions_code) else full in
  full.

(** [str(uuid.uuid4()).upper().replace('-', '')], from the drawn identifier. *)
Definition processing_uuid (u : N) : str :=
  PyStr.replace (PyStr.upper (PyUuid.to_str u)) (lit "-") [].

(** The f-string of lines 70-112.  It has two fields, [{processing_uuid}]
    and [{full_module_code}]; the form module is part of the literal. *)
Definition xml_content (processing_uuid full_module_code : str) : str :=
  xml_prolog ++ processing_uuid ++ xml_object_header
  ++ cdata_open ++ full_module_code ++ cdata_close ++ xml_form_section.

Definition create_1c_processing_xml : IO unit :=
  module_code <- read_file_content module_path ;;
  extensions_code <- read_file_content extensions_path ;;
  export_functions_code <- read_file_content export_functions_path ;;
  let full := full_module_code module_code export_functions_code extensions_code in
  let escaped_module_code := escape_xml full in
  u <- uuid4 ;;
  let processing_uuid := processing_uuid u in
  let xml_content := xml_content processing_uuid full in
  open_write output_file xml_content ;;
  print (msg_created ++ output_file) ;;
  print (msg_uuid ++ processing_uuid) ;;
  print (msg_size ++ PyStr.str_of_nat (length full) ++ msg_chars).

(** ** Vocabulary of the specification *)

(** [sub] occurs in [s] at position [t]. *)
Definition occurs_at (sub s : str) (t : nat) : bool :=
  (t <=? length s)%nat && PyStr.starts_with sub (skipn t s).

(** [sub] occurs in [s] at some position [>= start]. *)
Definition occurs_from (sub s : str) (start : nat) : bool :=
  existsb (occurs_at sub s) (seq start (S (length s) - start)).

(** [k] is the first position [>= start] at which [sub] occurs in [s]. *)
Definition first_occurrence_from (sub s : str) (start k : nat) : bool :=
  (start <=? k)%nat && occurs_at sub s k
  && forallb (fun t => negb (occurs_at sub s t)) (seq start (k - start)).

(** The characters of [s] at positions [a <= i < b]. *)
Definition substring (s : str) (a b : nat) : str := firstn (b - a) (skipn a s).

(** What the specification says the escaper does to one character. *)
Definition escape_char_spec (c : char) : str :=
  if (c =? 38)%N then lit "&amp;"
  else if (c =? 60)%N then lit "&lt;"
  else if (c =? 62)%N then lit "&gt;"
  else [c].

(** The text contains one of the three characters the escaper rewrites. *)
Definition has_special (s : str) : bool :=
  existsb (fun c => (c =? 38) || (c =? 60) || (c =? 62))%N s.

Definition is_upper_hex (c : char) : bool :=
  ((48 <=? c) && (c <=? 57) || (65 <=? c) && (c <=? 70))%N.

Definition is_lower_hex (c : char) : bool :=
  ((48 <=? c) && (c <=? 57) || (97 <=? c) && (c <=? 102))%N.

(** The text a reader of the document finds in its first character-data
    section: what lies between the first [<![CDATA[] and the first [[]]>]
    after it. *)
Definition first_cdata (doc : str) : option str :=
  let i := PyStr.find doc cdata_open 0 in
  if (i <? 0)%Z then None
  else
    let j := PyStr.find doc cdata_close (i + len cdata_open) in
    if (j <? 0)%Z then None
    else Some (PyStr.slice doc (i + len cdata_open) j).

(** What a read of [path] contributes to the run: the text, or nothing. *)
Definition text_read (w : World) (path : str) : str :=
  match files w path with
  | Content text => text
  | Unreadable _ => []
  end.

(** The diagnostic line of a failed read of [path]. *)
Definition read_diagnostic (w : World) (path : str) : list str :=
  match files w path with
  | Content _ => []
  | Unreadable e => [read_error_prefix ++ path ++ lit ": " ++ exn_text e]
  end.

(** The assembled module text of a run, from what its three reads give. *)
Definition module_text (w : World) : str :=
  full_module_code (text_read w module_path)
                   (text_read w export_functions_path)
                   (text_read w extensions_path).

(** The identifier of a run, from the bytes it draws. *)
Definition run_identifier (w : World) : str :=
  processing_uuid (PyUuid.uuid4 (entropy w)).

(** The diagnostics of a run, in the order of its reads. *)
Definition diagnostics (w : World) : list str :=
  read_diagnostic w module_path ++ read_diagnostic w extensions_path
  ++ read_diagnostic w export_functions_path.

(** The three lines of the summary. *)
Definition summary (w : World) : list str :=
  [ msg_created ++ output_file;
    msg_uuid ++ run_identifier w;
    msg_size ++ PyStr.str_of_nat (length (module_text w)) ++ msg_chars ].


(** The value of a string of hexadecimal digits. *)
Definition digit_value (c : char) : N :=
  if (c <? 58)%N then (c - 48)%N else (c - 87)%N.

Definition hex_value (s : str) : N :=
  fold_left (fun a c => 16 * a + digit_value c)%N s 0%N.

(** [s] and [sub] agree as far as both go: [sub] may start at the head of
    a text that begins with [s]. *)
Fixpoint compatible (sub s : str) : bool :=
  match sub, s with
  | [], _ => true
  | _ :: _, [] => true
  | a :: sub', b :: s' => (a =? b)%N && compatible sub' s'
  end.

(** Some position of [a] may start an occurrence of [sub] in a text that
    begins with [a]. *)
Fixpoint may_start (sub a : str) : bool :=
  match a with
  | [] => false
  | _ :: tl => compatible sub a || may_start sub tl
  end.

(** ** Sample inputs *)

Section Samples.

Local Open Scope N_scope.

(** A secondary text without the start marker. *)
Definition sample_no_start : str := lit "Function F() EndFunction".

(** A secondary text whose region is never closed. *)
Definition sample_no_end : str :=
  lit "// head" ++ nl ++ start_marker ++ nl ++ lit "Function F() EndFunction".

(** A secondary text with one closed region between other text. *)
Definition sample_region : str :=
  lit "// head" ++ nl ++ start_marker ++ nl ++ lit "Function F() EndFunction" ++ nl
  ++ end_marker ++ nl ++ lit "// tail".

(** A region [#Область Inner] nested in the region of the start marker. *)
Definition sample_nested : str :=
  start_marker ++ nl ++ lit "A" ++ nl
  ++ lit "#" ++ [1054; 1073; 1083; 1072; 1089; 1090; 1100] ++ lit " Inner" ++ nl
  ++ lit "B" ++ nl ++ end_marker ++ nl ++ lit "C" ++ nl ++ end_marker ++ nl.

(** What is extracted from it: up to the end marker of the nested region. *)
Definition sample_nested_region : str :=
  start_marker ++ nl ++ lit "A" ++ nl
  ++ lit "#" ++ [1054; 1073; 1083; 1072; 1089; 1090; 1100] ++ lit " Inner" ++ nl
  ++ lit "B" ++ nl ++ end_marker.

(** A world in which only the primary file exists and holds [text]. *)
Definition primary_only (text : str) : World :=
  mkWorld (fun p => if PyStr.eqb p module_path then Content text
                    else Unreadable (Exn (lit "[Errno 2] No such file or directory")))
          (fun _ => None)
          211111986739291122559526542806160113213
          [].

End Samples.

(** ** Further vocabulary and samples *)

(** The value of an upper-case hexadecimal digit. *)
Definition upper_digit_value (c : char) : N :=
  if (c <? 58)%N then (c - 48)%N else (c - 55)%N.

(** The number an identifier denotes, read as upper-case hexadecimal. *)
Definition identifier_value (s : str) : N :=
  fold_left (fun a c => 16 * a + upper_digit_value c)%N s 0%N.

(** The [i]-th hexadecimal digit of [n], counted from the least
    significant one. *)
Definition nibble (n : N) (i : nat) : N := ((n / 16 ^ N.of_nat i) mod 16)%N.


(** A world like [primary_only text] in which opening the output path for
    writing raises [e]. *)
Definition unwritable (text : str) (e : exn) : World :=
  mkWorld (files (primary_only text))
          (fun p => if PyStr.eqb p output_file then Some e else None)
          (entropy (primary_only text))
          [].

(** * Properties *)

(** ** Strings *)

Lemma starts_with_app (sub rest : str) : PyStr.starts_with sub (sub ++ rest) = true.
Proof.
  induction sub as [|c sub IH]; simpl; [reflexivity|].
  now rewrite N.eqb_refl.
Qed.

Lemma starts_with_inv (sub s : str) :
  PyStr.starts_with sub s = true -> exists rest, s = sub ++ rest.
Proof.
  revert s; induction sub as [|c sub IH]; intros s H.
  - now exists s.
  - destruct s as [|d s]; simpl in H; [discriminate|].
    apply andb_true_iff in H as [Hc Hs].
    apply N.eqb_eq in Hc; subst d.
    destruct (IH _ Hs) as [rest ->]. now exists rest.
Qed.

(** Replacing a one-character [old] rewrites the text character by
    character. *)
Lemma replace_single (s : str) (c : char) (new : str) :
  PyStr.replace s [c] new = flat_map (fun x => if (x =? c)%N then new else [x]) s.
Proof.
  unfold PyStr.replace.
  induction s as [|x s IH]; [reflexivity|].
  cbn [PyStr.replace_scan PyStr.starts_with flat_map length Nat.sub].
  rewrite (N.eqb_sym c x), andb_true_r.
  destruct (x =? c)%N; simpl; now rewrite IH.
Qed.

Lemma flat_map_flat_map {A B C} (f : A -> list B) (g : B -> list C) (l : list A) :
  flat_map g (flat_map f l) = flat_map (fun x => flat_map g (f x)) l.
Proof.
  induction l as [|x l IH]; simpl; [reflexivity|].
  now rewrite flat_map_app, IH.
Qed.

(** The three replacements of [escape_xml] amount to one pass that rewrites
    each character as the specification says. *)
Lemma escape_xml_flat_map (s : str) : escape_xml s = flat_map escape_char_spec s.
Proof.
  unfold escape_xml.
  change (lit "&") with [38%N]; change (lit "<") with [60%N];
    change (lit ">") with [62%N].
  rewrite !replace_single, !flat_map_flat_map.
  apply flat_map_ext; intros x. unfold escape_char_spec.
  destruct (N.eqb_spec x 38) as [->|H38]; [reflexivity|].
  destruct (N.eqb_spec x 60) as [->|H60]; [reflexivity|].
  cbn [flat_map].
  apply N.eqb_neq in H60; rewrite H60. cbn [flat_map app].
  destruct (x =? 62)%N; reflexivity.
Qed.

Lemma escape_xml_app (a b : str) : escape_xml (a ++ b) = escape_xml a ++ escape_xml b.
Proof. rewrite !escape_xml_flat_map. apply flat_map_app. Qed.

Lemma escape_xml_length (s : str) : (length s <= length (escape_xml s))%nat.
Proof.
  rewrite escape_xml_flat_map.
  induction s as [|c s IH]; simpl; [lia|].
  rewrite length_app.
  assert (1 <= length (escape_char_spec c))%nat; [|lia].
  unfold escape_char_spec.
  destruct (c =? 38)%N; [simpl; lia|].
  destruct (c =? 60)%N; [simpl; lia|].
  destruct (c =? 62)%N; simpl; lia.
Qed.

Lemma escape_xml_grows (s : str) :
  In 38%N s -> (length s < length (escape_xml s))%nat.
Proof.
  intros H. apply in_split in H as (a & b & ->).
  rewrite escape_xml_app. change (38%N :: b) with ([38%N] ++ b).
  rewrite escape_xml_app, !length_app.
  pose proof (escape_xml_length a). pose proof (escape_xml_length b).
  change (length (escape_xml [38%N])) with 5%nat. cbn [length]. lia.
Qed.

Lemma escape_xml_keeps_amp (s : str) :
  has_special s = true -> In 38%N (escape_xml s).
Proof.
  rewrite escape_xml_flat_map. unfold has_special.
  intros H. apply existsb_exists in H as (c & Hin & Hc).
  apply in_flat_map. exists c. split; [exact Hin|].
  unfold escape_char_spec.
  destruct (c =? 38)%N; [simpl; auto|].
  destruct (c =? 60)%N; [simpl; auto|].
  destruct (c =? 62)%N; [simpl; auto|discriminate].
Qed.

(** Escaping lengthens every text that holds a character it rewrites. *)
Lemma escape_xml_longer (s : str) :
  has_special s = true -> (length s < length (escape_xml s))%nat.
Proof.
  rewrite escape_xml_flat_map.
  induction s as [|c s IH]; [discriminate|].
  cbn [has_special existsb flat_map length]. rewrite length_app.
  pose proof (escape_xml_length s) as Hs. rewrite escape_xml_flat_map in Hs.
  set (rest := flat_map escape_char_spec s) in *.
  unfold escape_char_spec.
  destruct (c =? 38)%N;
    [intros _; change (length (lit "&amp;")) with 5%nat; lia|].
  destruct (c =? 60)%N;
    [intros _; change (length (lit "&lt;")) with 4%nat; lia|].
  destruct (c =? 62)%N;
    [intros _; change (length (lit "&gt;")) with 4%nat; lia|].
  intros H. specialize (IH H). cbn [length]. lia.
Qed.

(** ** [find] and slicing *)

Lemma find_scan_spec (sub s : str) : forall i,
  match PyStr.find_scan sub s i with
  | Some j =>
      exists k, j = (i + k)%nat /\ (k <= length s)%nat
                /\ PyStr.starts_with sub (skipn k s) = true
                /\ forall t, (t < k)%nat -> PyStr.starts_with sub (skipn t s) = false
  | None =>
      forall t, (t <= length s)%nat -> PyStr.starts_with sub (skipn t s) = false
  end.
Proof.
  induction s as [|c s IH]; intros i.
  - cbn [PyStr.find_scan].
    destruct (PyStr.starts_with sub []) eqn:E.
    + exists 0%nat. repeat split; [lia|simpl; lia|exact E|lia].
    + intros t Ht. simpl in Ht. replace t with 0%nat by lia. exact E.
  - cbn [PyStr.find_scan].
    destruct (PyStr.starts_with sub (c :: s)) eqn:E.
    + exists 0%nat. repeat split; [lia|simpl; lia|exact E|lia].
    + specialize (IH (S i)).
      destruct (PyStr.find_scan sub s (S i)) as [j|].
      * destruct IH as (k & -> & Hk & Hat & Hmin).
        exists (S k). repeat split; [lia|simpl; lia|exact Hat|].
        intros [|t] Ht; [exact E|]. apply Hmin. lia.
      * intros [|t] Ht; [exact E|]. apply IH. simpl in Ht. lia.
Qed.

Lemma find_of_nat (s sub : str) (start : nat) :
  PyStr.find s sub (Z.of_nat start) =
  if (start <=? length s)%nat
  then match PyStr.find_scan sub (skipn start s) start with
       | Some i => Z.of_nat i
       | None => (-1)%Z
       end
  else (-1)%Z.
Proof.
  unfold PyStr.find.
  destruct (Z.ltb_spec (Z.of_nat start) 0); [lia|].
  rewrite Nat2Z.id.
  destruct (Nat.leb_spec start (length s));
    destruct (Z.of_nat start >? Z.of_nat (length s))%Z eqn:E; try reflexivity.
  - apply Z.gtb_lt in E. lia.
  - rewrite Z.gtb_ltb in E. apply Z.ltb_ge in E. lia.
Qed.

Lemma occurs_at_true (sub s : str) (t : nat) :
  occurs_at sub s t = true <->
  (t <= length s)%nat /\ PyStr.starts_with sub (skipn t s) = true.
Proof.
  unfold occurs_at. rewrite andb_true_iff, Nat.leb_le. tauto.
Qed.

(** An occurrence at [t] is a decomposition of the text around [sub]. *)
Lemma occurs_at_split (sub s : str) (t : nat) :
  occurs_at sub s t = true ->
  exists rest, s = firstn t s ++ sub ++ rest /\ length (firstn t s) = t.
Proof.
  intros H. apply occurs_at_true in H as [Ht H].
  apply starts_with_inv in H as [rest Hr]. exists rest.
  split; [|apply firstn_length_le; exact Ht].
  rewrite <- Hr. symmetry. apply firstn_skipn.
Qed.

Lemma occurs_at_app (pre sub rest : str) :
  occurs_at sub (pre ++ sub ++ rest) (length pre) = true.
Proof.
  apply occurs_at_true. split.
  - rewrite length_app. lia.
  - rewrite skipn_app, skipn_all, Nat.sub_diag. simpl. apply starts_with_app.
Qed.

Lemma occurs_from_false (sub s : str) (start : nat) :
  occurs_from sub s start = false <->
  forall t, (start <= t <= length s)%nat -> occurs_at sub s t = false.
Proof.
  unfold occurs_from. split.
  - intros H t Ht.
    destruct (occurs_at sub s t) eqn:E; [|reflexivity].
    rewrite <- H. symmetry. apply existsb_exists. exists t. split; [|exact E].
    apply in_seq. lia.
  - intros H. apply not_true_is_false. intros E.
    apply existsb_exists in E as (t & Hin & Ht). apply in_seq in Hin.
    rewrite H in Ht; [discriminate|lia].
Qed.

Lemma first_occurrence_from_true (sub s : str) (start k : nat) :
  first_occurrence_from sub s start k = true <->
  (start <= k)%nat /\ occurs_at sub s k = true
  /\ forall t, (start <= t < k)%nat -> occurs_at sub s t = false.
Proof.
  unfold first_occurrence_from.
  rewrite !andb_true_iff, Nat.leb_le, forallb_forall. split.
  - intros [[H1 H2] H3]. repeat split; [exact H1|exact H2|].
    intros t Ht. apply negb_true_iff. apply H3. apply in_seq. lia.
  - intros (H1 & H2 & H3). repeat split; [exact H1|exact H2|].
    intros t Ht. apply in_seq in Ht. apply negb_true_iff. apply H3. lia.
Qed.

(** [find] returns [-1] exactly when there is no occurrence from [start]
    on, and otherwise the first one. *)
Lemma find_cases (s sub : str) (start : nat) :
  (start <= length s)%nat ->
  (PyStr.find s sub (Z.of_nat start) = (-1)%Z /\ occurs_from sub s start = false)
  \/ (exists k, PyStr.find s sub (Z.of_nat start) = Z.of_nat k
                /\ first_occurrence_from sub s start k = true).
Proof.
  intros Hs. rewrite find_of_nat.
  destruct (Nat.leb_spec start (length s)); [|lia].
  pose proof (find_scan_spec sub (skipn start s) start) as Hspec.
  destruct (PyStr.find_scan sub (skipn start s) start) as [j|].
  - right. destruct Hspec as (k & -> & Hk & Hat & Hmin).
    rewrite length_skipn in Hk. rewrite skipn_skipn in Hat.
    exists (start + k)%nat. split; [reflexivity|].
    apply first_occurrence_from_true. repeat split; [lia| |].
    + apply occurs_at_true. split; [lia|].
      now rewrite Nat.add_comm in Hat.
    + intros t Ht. unfold occurs_at.
      replace t with (start + (t - start))%nat by lia.
      rewrite (Nat.add_comm start), <- skipn_skipn, Hmin by lia.
      apply andb_false_r.
  - left. split; [reflexivity|].
    apply occurs_from_false. intros t Ht. unfold occurs_at.
    replace t with (start + (t - start))%nat by lia.
    rewrite (Nat.add_comm start), <- skipn_skipn, Hspec.
    + apply andb_false_r.
    + rewrite length_skipn. lia.
Qed.

Lemma first_occurrence_unique (sub s : str) (start k k' : nat) :
  first_occurrence_from sub s start k = true ->
  first_occurrence_from sub s start k' = true -> k = k'.
Proof.
  intros H H'.
  apply first_occurrence_from_true in H as (H1 & H2 & H3).
  apply first_occurrence_from_true in H' as (H1' & H2' & H3').
  destruct (Nat.lt_trichotomy k k') as [L|[E|L]]; [|exact E|].
  - rewrite H3' in H2 by lia. discriminate.
  - rewrite H3 in H2' by lia. discriminate.
Qed.

Lemma find_first (s sub : str) (start k : nat) :
  first_occurrence_from sub s start k = true ->
  PyStr.find s sub (Z.of_nat start) = Z.of_nat k.
Proof.
  intros H.
  pose proof H as H'. apply first_occurrence_from_true in H' as (H1 & H2 & H3).
  apply occurs_at_true in H2 as [Hk _].
  destruct (find_cases s sub start) as [[_ Hno]|(k' & -> & Hk')]; [lia| |].
  - rewrite occurs_from_false in Hno.
    apply first_occurrence_from_true in H as (_ & H2 & _).
    rewrite Hno in H2 by lia. discriminate.
  - f_equal. eapply first_occurrence_unique; eassumption.
Qed.

Lemma find_none (s sub : str) (start : nat) :
  (start <= length s)%nat ->
  occurs_from sub s start = false ->
  PyStr.find s sub (Z.of_nat start) = (-1)%Z.
Proof.
  intros Hs H.
  destruct (find_cases s sub start) as [[E _]|(k & _ & Hk)]; [exact Hs|exact E|].
  apply first_occurrence_from_true in Hk as (H1 & H2 & _).
  rewrite occurs_from_false in H.
  pose proof H2 as H2'. apply occurs_at_true in H2' as [Hk _].
  rewrite H in H2 by lia. discriminate.
Qed.

Lemma slice_of_nat (s : str) (a b : nat) :
  (a <= b <= length s)%nat ->
  PyStr.slice s (Z.of_nat a) (Z.of_nat b) = substring s a b.
Proof.
  intros H. unfold PyStr.slice, PyStr.clamp, substring.
  destruct (Z.ltb_spec (Z.of_nat a) 0); [lia|].
  destruct (Z.ltb_spec (Z.of_nat b) 0); [lia|].
  rewrite !Z.min_l, !Nat2Z.id by lia.
  apply skipn_firstn_comm.
Qed.

(** ** The region of the secondary text *)

Lemma firstn_exact {A} (l r : list A) : firstn (length l) (l ++ r) = l.
Proof.
  rewrite <- (Nat.add_0_r (length l)), firstn_app_2. simpl. apply app_nil_r.
Qed.

Lemma skipn_exact {A} (l r : list A) : skipn (length l) (l ++ r) = r.
Proof. rewrite skipn_app, skipn_all, Nat.sub_diag. reflexivity. Qed.

(** Between an occurrence of [a] at [i] and a later occurrence of [b] at
    [j], the substring from [i] through the end of [b] is [a], what lies
    between, and [b]. *)
Lemma substring_between (a b s : str) (i j : nat) :
  occurs_at a s i = true -> occurs_at b s j = true ->
  (i + length a <= j)%nat ->
  substring s i (j + length b) = a ++ substring s (i + length a) j ++ b.
Proof.
  intros Ha Hb Hij.
  apply occurs_at_true in Ha as [Hi Ha]. apply occurs_at_true in Hb as [Hj Hb].
  apply starts_with_inv in Ha as [r1 Hr1]. apply starts_with_inv in Hb as [r2 Hr2].
  unfold substring.
  assert (Hs : skipn (i + length a) s = r1).
  { rewrite (Nat.add_comm i), <- skipn_skipn, Hr1. apply skipn_exact. }
  rewrite Hs, Hr1.
  remember (j - (i + length a))%nat as d eqn:Hd.
  assert (Hlen : (d <= length r1)%nat).
  { apply (f_equal (@length N)) in Hr1.
    rewrite length_skipn, length_app in Hr1. lia. }
  assert (Hr : r1 = firstn d r1 ++ b ++ r2).
  { rewrite <- Hr2. replace j with (d + (i + length a))%nat by lia.
    rewrite <- skipn_skipn, Hs. symmetry. apply firstn_skipn. }
  assert (Hf : length (firstn d r1) = d) by (apply firstn_length_le; exact Hlen).
  revert Hr Hf. generalize (firstn d r1) as f. intros f -> Hf.
  replace (j + length b - i)%nat with (length a + (length f + length b))%nat by lia.
  rewrite firstn_app_2. f_equal.
  rewrite firstn_app_2. f_equal. apply firstn_exact.
Qed.

(** The three ways lines 47-56 can go. *)
Lemma program_interface_code_cases (e : str) :
  (program_interface_code e = None /\ occurs_from start_marker e 0 = false)
  \/ (exists i,
        first_occurrence_from start_marker e 0 i = true
        /\ occurs_from end_marker e (i + length start_marker) = false
        /\ program_interface_code e = None)
  \/ (exists i j,
        first_occurrence_from start_marker e 0 i = true
        /\ first_occurrence_from end_marker e (i + length start_marker) j = true
        /\ program_interface_code e = Some (substring e i (j + length end_marker))).
Proof.
  destruct e as [|c e']; [left; split; reflexivity|].
  remember (c :: e') as e eqn:He.
  assert (Ht : truthy e = true) by (subst e; reflexivity).
  unfold program_interface_code. rewrite Ht. clear Ht He c e'.
  change 0%Z with (Z.of_nat 0).
  destruct (find_cases e start_marker 0) as [[-> Hno]|(i & -> & Hi)]; [lia| |].
  - left. split; [reflexivity|exact Hno].
  - right.
    destruct (Z.geb_spec (Z.of_nat i) (Z.of_nat 0)) as [_|]; [|lia].
    pose proof Hi as Hi'. apply first_occurrence_from_true in Hi' as (_ & Hat & _).
    pose proof Hat as Hsp. apply occurs_at_split in Hsp as (rest & Hsp & Hl).
    assert (Hle : (i + length start_marker <= length e)%nat).
    { rewrite Hsp, !length_app, Hl. lia. }
    unfold len. rewrite <- !Nat2Z.inj_add.
    destruct (find_cases e end_marker (i + length start_marker))
      as [[-> Hno]|(j & -> & Hj)]; [exact Hle| |].
    + left. exists i. split; [exact Hi|]. split; [exact Hno|reflexivity].
    + right. exists i, j.
      destruct (Z.geb_spec (Z.of_nat j) (Z.of_nat 0)) as [_|]; [|lia].
      rewrite <- Nat2Z.inj_add.
      split; [exact Hi|]. split; [exact Hj|]. f_equal.
      apply first_occurrence_from_true in Hj as (Hij & Hatj & _).
      apply slice_of_nat.
      apply occurs_at_split in Hatj as (rest' & Hsp' & Hl').
      apply (f_equal (@length N)) in Hsp'.
      rewrite !length_app, Hl' in Hsp'. lia.
Qed.

Lemma first_occurrence_occurs (sub s : str) (start k : nat) :
  first_occurrence_from sub s start k = true -> occurs_from sub s start = true.
Proof.
  intros H. apply first_occurrence_from_true in H as (H1 & H2 & _).
  apply not_false_is_true. intros E. rewrite occurs_from_false in E.
  pose proof H2 as H2'. apply occurs_at_true in H2' as [Hk _].
  rewrite E in H2 by lia. discriminate.
Qed.

Lemma program_interface_code_no_start (e : str) :
  occurs_from start_marker e 0 = false -> program_interface_code e = None.
Proof.
  intros H.
  destruct (program_interface_code_cases e)
    as [[E _]|[(i & Hi & _)|(i & j & Hi & _)]]; [exact E| |];
    apply first_occurrence_occurs in Hi; congruence.
Qed.

Lemma program_interface_code_no_end (e : str) (i : nat) :
  first_occurrence_from start_marker e 0 i = true ->
  occurs_from end_marker e (i + length start_marker) = false ->
  program_interface_code e = None.
Proof.
  intros Hi Hno.
  destruct (program_interface_code_cases e)
    as [[E _]|[(i' & _ & _ & E)|(i' & j & Hi' & Hj & _)]]; [exact E|exact E|].
  rewrite (first_occurrence_unique _ _ _ _ _ Hi Hi') in Hno.
  apply first_occurrence_occurs in Hj. congruence.
Qed.

Lemma program_interface_code_region (e : str) (i j : nat) :
  first_occurrence_from start_marker e 0 i = true ->
  first_occurrence_from end_marker e (i + length start_marker) j = true ->
  program_interface_code e = Some (substring e i (j + length end_marker)).
Proof.
  intros Hi Hj.
  destruct (program_interface_code_cases e)
    as [[_ E]|[(i' & Hi' & E & _)|(i' & j' & Hi' & Hj' & E)]].
  - apply first_occurrence_occurs in Hi. congruence.
  - rewrite <- (first_occurrence_unique _ _ _ _ _ Hi Hi') in E.
    apply first_occurrence_occurs in Hj. congruence.
  - pose proof (first_occurrence_unique _ _ _ _ _ Hi Hi') as <-.
    pose proof (first_occurrence_unique _ _ _ _ _ Hj Hj') as <-.
    exact E.
Qed.

(** ** The identifier *)

Lemma hex_digit_lower (d : N) : (d < 16)%N -> is_lower_hex (PyStr.hex_digit d) = true.
Proof.
  intros H. unfold is_lower_hex, PyStr.hex_digit.
  apply orb_true_iff.
  destruct (N.ltb_spec d 10); [left|right];
    apply andb_true_iff; split; apply N.leb_le; lia.
Qed.

Lemma hex_scan_lower (fuel : nat) : forall n acc,
  Forall (fun c => is_lower_hex c = true) acc ->
  Forall (fun c => is_lower_hex c = true) (PyStr.hex_scan fuel n acc).
Proof.
  induction fuel as [|fuel IH]; intros n acc Hacc; [exact Hacc|].
  cbn [PyStr.hex_scan].
  assert (Hd : Forall (fun c => is_lower_hex c = true)
                 (PyStr.hex_digit (n mod 16) :: acc)).
  { constructor; [|exact Hacc]. apply hex_digit_lower.
    apply N.mod_lt. discriminate. }
  destruct (n / 16 =? 0)%N; [exact Hd|]. apply IH, Hd.
Qed.

Lemma hex_scan_length (fuel : nat) : forall n acc k,
  (1 <= k)%nat -> (n < 16 ^ N.of_nat k)%N ->
  (length (PyStr.hex_scan fuel n acc) <= length acc + k)%nat.
Proof.
  induction fuel as [|fuel IH]; intros n acc k Hk Hn; [simpl; lia|].
  cbn [PyStr.hex_scan].
  destruct (N.eqb_spec (n / 16) 0) as [E|E]; [simpl; lia|].
  destruct k as [|[|k]]; [lia| |].
  - exfalso. apply E. apply N.div_small. exact Hn.
  - specialize (IH (n / 16)%N (PyStr.hex_digit (n mod 16) :: acc) (S k)).
    cbn [length] in IH.
    assert (length (PyStr.hex_scan fuel (n / 16)
                      (PyStr.hex_digit (n mod 16) :: acc))
            <= S (length acc) + S k)%nat; [|lia].
    apply IH; [lia|].
    apply N.Div0.div_lt_upper_bound.
    rewrite <- N.pow_succ_r', <- Nat2N.inj_succ. exact Hn.
Qed.

Lemma format_032x_lower (n : N) :
  Forall (fun c => is_lower_hex c = true) (PyStr.format_032x n).
Proof.
  unfold PyStr.format_032x. apply Forall_app. split.
  - apply Forall_forall. intros c Hc. apply repeat_spec in Hc. now subst c.
  - apply hex_scan_lower. constructor.
Qed.

Lemma format_032x_length (n : N) :
  (n < 2 ^ 128)%N -> length (PyStr.format_032x n) = 32%nat.
Proof.
  intros Hn. unfold PyStr.format_032x.
  rewrite length_app, repeat_length.
  pose proof (hex_scan_length (S (N.to_nat (N.size n))) n [] 32) as H.
  cbn [length] in H. unfold PyStr.to_hex.
  assert (length (PyStr.hex_scan (S (N.to_nat (N.size n))) n []) <= 0 + 32)%nat; [|lia].
  apply H; [lia|]. exact Hn.
Qed.

Lemma log2_lt_128 (a : N) : (a < 2 ^ 128)%N -> (N.log2 a < 128)%N.
Proof.
  intros H. destruct (N.eq_dec a 0) as [->|Ha]; [reflexivity|].
  apply N.log2_lt_pow2; [lia|exact H].
Qed.

Lemma lor_lt_128 (a b : N) :
  (a < 2 ^ 128)%N -> (b < 2 ^ 128)%N -> (N.lor a b < 2 ^ 128)%N.
Proof.
  intros Ha Hb.
  destruct (N.eq_dec (N.lor a b) 0) as [->|H]; [reflexivity|].
  apply N.log2_lt_pow2; [lia|].
  rewrite N.log2_lor. apply N.max_lub_lt; apply log2_lt_128; assumption.
Qed.

(** Forcing the version and variant bits keeps the identifier in 128 bits. *)
Lemma uuid4_bound (r : N) : (r < 2 ^ 128)%N -> (PyUuid.uuid4 r < 2 ^ 128)%N.
Proof.
  intros H. unfold PyUuid.uuid4.
  apply lor_lt_128; [|reflexivity].
  eapply N.le_lt_trans; [apply N.ldiff_le_l|].
  apply lor_lt_128; [|reflexivity].
  eapply N.le_lt_trans; [apply N.ldiff_le_l|exact H].
Qed.

Lemma upper_lower_hex (c : N) :
  is_lower_hex c = true -> is_upper_hex (PyStr.upper_char c) = true.
Proof.
  unfold is_lower_hex, is_upper_hex, PyStr.upper_char. intros H.
  apply orb_true_iff in H. apply orb_true_iff.
  destruct H as [H|H]; apply andb_true_iff in H as [H1 H2];
    apply N.leb_le in H1, H2.
  - left. destruct (N.leb_spec 97 c); [lia|]. cbn [andb].
    apply andb_true_iff; split; apply N.leb_le; lia.
  - right. destruct (N.leb_spec 97 c); [|lia].
    destruct (N.leb_spec c 122); [|lia]. cbn [andb].
    apply andb_true_iff; split; apply N.leb_le; lia.
Qed.

Lemma upper_hex_not_dash (c : N) : is_upper_hex c = true -> (c =? 45)%N = false.
Proof.
  unfold is_upper_hex. intros H. apply N.eqb_neq. intros ->. discriminate.
Qed.

Lemma strip_dash_hex (s : str) :
  Forall (fun c => is_upper_hex c = true) s ->
  flat_map (fun x => if (x =? 45)%N then [] else [x]) s = s.
Proof.
  induction 1 as [|c s Hc Hs IH]; [reflexivity|].
  cbn [flat_map]. rewrite (upper_hex_not_dash c Hc), IH. reflexivity.
Qed.

(** The grouping of [str(uuid)] cuts the 32 digits into five runs and joins
    them with dashes. *)
Lemma to_str_groups (u : N) :
  length (PyStr.format_032x u) = 32%nat ->
  exists a b c d e,
    PyStr.format_032x u = a ++ b ++ c ++ d ++ e
    /\ PyUuid.to_str u =
       a ++ lit "-" ++ b ++ lit "-" ++ c ++ lit "-" ++ d ++ lit "-" ++ e.
Proof.
  intros H. unfold PyUuid.to_str. rewrite H.
  generalize dependent (PyStr.format_032x u). intros h H.
  exists (firstn 8 h), (firstn 4 (skipn 8 h)), (firstn 4 (skipn 12 h)),
    (firstn 4 (skipn 16 h)), (skipn 20 h).
  do 32 (destruct h as [|? h]; [discriminate H|]).
  destruct h; [clear H|discriminate H].
  split; reflexivity.
Qed.

(** With dashes removed and letters raised, the identifier is the 32 digits
    of the drawn number in upper case. *)
Lemma processing_uuid_digits (u : N) :
  length (PyStr.format_032x u) = 32%nat ->
  processing_uuid u = map PyStr.upper_char (PyStr.format_032x u).
Proof.
  intros H. destruct (to_str_groups u H) as (a & b & c & d & e & Hh & Hs).
  unfold processing_uuid, PyStr.upper. rewrite Hs.
  change (lit "-") with [45%N]. rewrite replace_single.
  assert (Hall : Forall (fun c => is_upper_hex c = true)
                   (map PyStr.upper_char (a ++ b ++ c ++ d ++ e))).
  { rewrite <- Hh. apply Forall_map.
    eapply Forall_impl; [|apply format_032x_lower].
    intros x Hx. apply upper_lower_hex, Hx. }
  rewrite Hh. rewrite !map_app in *. rewrite !flat_map_app.
  apply Forall_app in Hall as [Ha Hall]. apply Forall_app in Hall as [Hb Hall].
  apply Forall_app in Hall as [Hc Hall]. apply Forall_app in Hall as [Hd He].
  rewrite (strip_dash_hex _ Ha), (strip_dash_hex _ Hb), (strip_dash_hex _ Hc),
    (strip_dash_hex _ Hd), (strip_dash_hex _ He).
  reflexivity.
Qed.

(** The fuel of [to_hex] is enough: the digits denote the number. *)
Lemma hex_value_snoc (s : str) (c : N) :
  hex_value (s ++ [c]) = (16 * hex_value s + digit_value c)%N.
Proof. unfold hex_value. rewrite fold_left_app. reflexivity. Qed.

Lemma digit_value_hex_digit (d : N) :
  (d < 16)%N -> digit_value (PyStr.hex_digit d) = d.
Proof.
  intros H. unfold digit_value, PyStr.hex_digit.
  destruct (N.ltb_spec d 10).
  - destruct (N.ltb_spec (48 + d) 58); lia.
  - destruct (N.ltb_spec (87 + d) 58); lia.
Qed.

Lemma hex_scan_value (fuel : nat) : forall n acc,
  (n < 2 ^ N.of_nat fuel)%N ->
  exists ds, PyStr.hex_scan fuel n acc = ds ++ acc /\ hex_value ds = n.
Proof.
  induction fuel as [|fuel IH]; intros n acc Hn.
  - exists []. split; [reflexivity|]. simpl in Hn. cbn. lia.
  - cbn [PyStr.hex_scan].
    assert (Hm : (n mod 16 < 16)%N) by (apply N.mod_lt; discriminate).
    destruct (N.eqb_spec (n / 16) 0) as [E|E].
    + exists [PyStr.hex_digit (n mod 16)]. split; [reflexivity|].
      change (hex_value [PyStr.hex_digit (n mod 16)])
        with (16 * 0 + digit_value (PyStr.hex_digit (n mod 16)))%N.
      rewrite digit_value_hex_digit by exact Hm.
      pose proof (N.div_mod n 16). lia.
    + destruct (IH (n / 16)%N (PyStr.hex_digit (n mod 16) :: acc))
        as (ds & Hds & Hv).
      { apply N.Div0.div_lt_upper_bound.
        rewrite Nat2N.inj_succ, N.pow_succ_r' in Hn.
        pose proof (N.pow_nonzero 2 (N.of_nat fuel)). lia. }
      exists (ds ++ [PyStr.hex_digit (n mod 16)]). split.
      * rewrite Hds, <- app_assoc. reflexivity.
      * rewrite hex_value_snoc, Hv, digit_value_hex_digit by exact Hm.
        pose proof (N.div_mod n 16). lia.
Qed.

Lemma to_hex_value (n : N) : hex_value (PyStr.to_hex n) = n.
Proof.
  unfold PyStr.to_hex.
  destruct (hex_scan_value (S (N.to_nat (N.size n))) n []) as (ds & -> & Hv).
  - rewrite Nat2N.inj_succ, N2Nat.id, N.pow_succ_r'.
    pose proof (N.size_gt n). lia.
  - rewrite app_nil_r. exact Hv.
Qed.

Lemma Forall_firstn {A} (P : A -> Prop) (n : nat) (l : list A) :
  Forall P l -> Forall P (firstn n l).
Proof.
  intros H. rewrite <- (firstn_skipn n l) in H. now apply Forall_app in H.
Qed.

Lemma Forall_skipn {A} (P : A -> Prop) (n : nat) (l : list A) :
  Forall P l -> Forall P (skipn n l).
Proof.
  intros H. rewrite <- (firstn_skipn n l) in H. now apply Forall_app in H.
Qed.

Lemma Forall_slice (P : N -> Prop) (s : str) (a b : Z) :
  Forall P s -> Forall P (PyStr.slice s a b).
Proof. intros H. unfold PyStr.slice. now apply Forall_skipn, Forall_firstn. Qed.

(** Whatever number is drawn, the identifier holds upper-case hexadecimal
    digits only. *)
Lemma processing_uuid_hex (u : N) :
  Forall (fun c => is_upper_hex c = true) (processing_uuid u).
Proof.
  unfold processing_uuid. change (lit "-") with [45%N].
  rewrite replace_single.
  assert (H : Forall (fun c => is_lower_hex c = true \/ c = 45%N) (PyUuid.to_str u)).
  { assert (Hh : Forall (fun c => is_lower_hex c = true \/ c = 45%N)
                   (PyStr.format_032x u)).
    { eapply Forall_impl; [|apply format_032x_lower]. intros x Hx. now left. }
    unfold PyUuid.to_str.
    repeat (apply Forall_app; split);
      try (apply Forall_slice; exact Hh);
      repeat constructor; now right. }
  unfold PyStr.upper. induction H as [|c s Hc Hs IH]; [constructor|].
  cbn [map flat_map]. apply Forall_app. split; [|exact IH].
  destruct Hc as [Hc| ->]; [|constructor].
  pose proof (upper_lower_hex c Hc) as Hu.
  rewrite (upper_hex_not_dash _ Hu). constructor; [exact Hu|constructor].
Qed.

(** ** The character-data section of the document *)

Lemma starts_with_compatible (sub a rest : str) :
  PyStr.starts_with sub (a ++ rest) = true -> compatible sub a = true.
Proof.
  revert a; induction sub as [|c sub IH]; intros a H; [reflexivity|].
  destruct a as [|x a]; [reflexivity|].
  cbn [app PyStr.starts_with] in H. cbn [compatible].
  apply andb_true_iff in H as [Hc Hs].
  rewrite Hc. cbn [andb]. apply IH, Hs.
Qed.

Lemma find_scan_here (sub s : str) (i : nat) :
  PyStr.starts_with sub s = true -> PyStr.find_scan sub s i = Some i.
Proof. intros H. destruct s; cbn [PyStr.find_scan]; now rewrite H. Qed.

(** The scan passes over a stretch in which no occurrence can start. *)
Lemma find_scan_skip (sub a rest : str) : forall i,
  may_start sub a = false ->
  PyStr.find_scan sub (a ++ rest) i = PyStr.find_scan sub rest (i + length a).
Proof.
  induction a as [|x a IH]; intros i H.
  - cbn [app length]. now rewrite Nat.add_0_r.
  - cbn [may_start] in H. apply orb_false_iff in H as [Hc Hm].
    cbn [app PyStr.find_scan].
    destruct (PyStr.starts_with sub (x :: a ++ rest)) eqn:E.
    + apply (starts_with_compatible sub (x :: a) rest) in E. congruence.
    + rewrite IH by exact Hm. cbn [length]. f_equal. lia.
Qed.

Lemma may_start_other_head (c : N) (sub a : str) :
  Forall (fun x => (c =? x)%N = false) a -> may_start (c :: sub) a = false.
Proof.
  induction 1 as [|x a Hx Ha IH]; [reflexivity|].
  cbn [may_start compatible]. now rewrite Hx, IH.
Qed.

Lemma starts_with_app_r (sub x y : str) :
  (length sub <= length x)%nat ->
  PyStr.starts_with sub (x ++ y) = PyStr.starts_with sub x.
Proof.
  revert x; induction sub as [|c sub IH]; intros x H; [reflexivity|].
  destruct x as [|d x]; [simpl in H; lia|].
  cbn [app PyStr.starts_with]. rewrite IH; [reflexivity|]. simpl in H. lia.
Qed.

(** When [sub] first occurs in [a ++ sub] at the end of [a], the scan of
    any text that begins with [a ++ sub] stops there. *)
Lemma find_scan_first (sub a rest : str) : forall i,
  first_occurrence_from sub (a ++ sub) 0 (length a) = true ->
  PyStr.find_scan sub (a ++ sub ++ rest) i = Some (i + length a)%nat.
Proof.
  induction a as [|x a IH]; intros i H.
  - cbn [app length]. rewrite Nat.add_0_r. apply find_scan_here, starts_with_app.
  - apply first_occurrence_from_true in H as (_ & Hat & Hmin).
    cbn [app PyStr.find_scan].
    assert (E : PyStr.starts_with sub (x :: a ++ sub ++ rest) = false).
    { specialize (Hmin 0%nat). unfold occurs_at in Hmin.
      cbn [skipn Nat.leb andb] in Hmin.
      change (x :: a ++ sub ++ rest) with ((x :: a) ++ sub ++ rest).
      rewrite app_assoc, starts_with_app_r.
      - apply Hmin. cbn [length]. lia.
      - rewrite length_app. lia. }
    rewrite E, IH; [f_equal; cbn [length]; lia|].
    apply first_occurrence_from_true. split; [lia|]. split.
    + pose proof (occurs_at_app a sub []) as Ho.
      now rewrite app_nil_r in Ho.
    + intros t Ht. specialize (Hmin (S t)). unfold occurs_at in *.
      cbn [skipn length app] in Hmin.
      assert (Hb : (S t <=? S (length (a ++ sub)))%nat = (t <=? length (a ++ sub))%nat)
        by reflexivity.
      rewrite Hb in Hmin. apply Hmin. cbn [length]. lia.
Qed.

(** A reader finds the module text itself in the first character-data
    section, when the closing sequence first occurs where the template puts
    it. *)
Lemma first_cdata_xml_content (u full : str) :
  Forall (fun c => is_upper_hex c = true) u ->
  first_occurrence_from cdata_close (full ++ cdata_close) 0 (length full) = true ->
  first_cdata (xml_content u full) = Some full.
Proof.
  intros Hu Hfull. unfold first_cdata, xml_content.
  set (R := full ++ cdata_close ++ xml_form_section).
  set (doc := xml_prolog ++ u ++ xml_object_header ++ cdata_open ++ R).
  set (b := (length xml_prolog + length u + length xml_object_header)%nat).
  assert (Hlen : length doc = (b + length cdata_open + length R)%nat).
  { unfold doc, b. rewrite !length_app. lia. }
  assert (Hopen : PyStr.find doc cdata_open 0 = Z.of_nat b).
  { change 0%Z with (Z.of_nat 0). rewrite find_of_nat.
    cbn [Nat.leb skipn]. unfold doc.
    rewrite find_scan_skip by (vm_compute; reflexivity).
    rewrite find_scan_skip.
    2:{ apply may_start_other_head.
        eapply Forall_impl; [|exact Hu]. intros x Hx.
        apply N.eqb_neq. intros <-. discriminate. }
    rewrite find_scan_skip by (vm_compute; reflexivity).
    rewrite find_scan_here by apply starts_with_app.
    f_equal. }
  rewrite Hopen.
  destruct (Z.ltb_spec (Z.of_nat b) 0); [lia|].
  unfold len. rewrite <- Nat2Z.inj_add.
  assert (Hskip : skipn (b + length cdata_open) doc = R).
  { unfold doc, b.
    rewrite (app_assoc xml_prolog), (app_assoc _ xml_object_header),
      (app_assoc _ cdata_open).
    rewrite <- !length_app. apply skipn_exact. }
  assert (Hclose : PyStr.find doc cdata_close (Z.of_nat (b + length cdata_open))
                   = Z.of_nat (b + length cdata_open + length full)).
  { rewrite find_of_nat.
    destruct (Nat.leb_spec (b + length cdata_open) (length doc)); [|lia].
    rewrite Hskip. unfold R. rewrite find_scan_first by exact Hfull.
    reflexivity. }
  rewrite Hclose.
  destruct (Z.ltb_spec (Z.of_nat (b + length cdata_open + length full)) 0); [lia|].
  f_equal. rewrite slice_of_nat.
  - unfold substring. rewrite Hskip. unfold R.
    replace (b + length cdata_open + length full - (b + length cdata_open))%nat
      with (length full) by lia.
    apply firstn_exact.
  - rewrite Hlen. unfold R. rewrite length_app. lia.
Qed.

(** ** Runs *)

Lemma str_eqb_eq (a b : str) : PyStr.eqb a b = true <-> a = b.
Proof.
  unfold PyStr.eqb. destruct (list_eq_dec N.eq_dec a b); split; congruence.
Qed.

Lemma utf8_encodable_app (a b : str) :
  utf8_encodable (a ++ b) = utf8_encodable a && utf8_encodable b.
Proof. apply forallb_app. Qed.

Lemma upper_hex_encodable (s : str) :
  Forall (fun c => is_upper_hex c = true) s -> utf8_encodable s = true.
Proof.
  induction 1 as [|c s Hc Hs IH]; [reflexivity|].
  cbn [utf8_encodable forallb]. fold (utf8_encodable s). rewrite IH, andb_true_r.
  unfold is_upper_hex in Hc. unfold surrogate.
  apply orb_true_iff in Hc.
  destruct Hc as [Hc|Hc]; apply andb_true_iff in Hc as [_ Hc];
    apply N.leb_le in Hc; destruct (N.leb_spec 55296 c); try reflexivity; lia.
Qed.

Lemma decimal_encodable (d : Decimal.uint) :
  utf8_encodable (lit (NilEmpty.string_of_uint d)) = true.
Proof. induction d; [reflexivity|exact IHd ..]. Qed.

(** The console takes every line of the summary. *)
Lemma summary_encodable (u : N) (n : nat) :
  utf8_encodable (msg_created ++ output_file) = true
  /\ utf8_encodable (msg_uuid ++ processing_uuid u) = true
  /\ utf8_encodable (msg_size ++ PyStr.str_of_nat n ++ msg_chars) = true.
Proof.
  split; [reflexivity|]. split.
  - rewrite utf8_encodable_app, (upper_hex_encodable _ (processing_uuid_hex u)).
    reflexivity.
  - unfold PyStr.str_of_nat.
    rewrite !utf8_encodable_app, decimal_encodable. reflexivity.
Qed.

(** The diagnostic of a failed read can be encoded when the path can. *)
Lemma diagnostic_encodable (path : str) (e : exn) :
  utf8_encodable (read_error_prefix ++ path ++ lit ": " ++ exn_text e)
  = utf8_encodable path.
Proof.
  rewrite !utf8_encodable_app, (exn_text_encodable e), !andb_true_r.
  reflexivity.
Qed.

Lemma print_run (line : str) (w : World) :
  utf8_encodable line = true ->
  print line w =
  (Ret tt, mkWorld (files w) (write_error w) (entropy w) (console w ++ [line])).
Proof. intros H. unfold print. now rewrite H. Qed.

(** A readable file is returned as it is, whatever the path. *)
Lemma read_file_content_content (path : str) (w : World) (t : str) :
  files w path = Content t -> read_file_content path w = (Ret t, w).
Proof.
  intros H. unfold read_file_content, try_except, open_read. now rewrite H.
Qed.

(** A failed read prints its diagnostic and returns the empty string, or
    raises the error of the print when the console cannot take the line. *)
Lemma read_file_content_failed (path : str) (w : World) (e : exn) :
  files w path = Unreadable e ->
  read_file_content path w =
  if utf8_encodable path
  then (Ret [],
        mkWorld (files w) (write_error w) (entropy w)
                (console w ++ [read_error_prefix ++ path ++ lit ": " ++ exn_text e]))
  else (Raise (unicode_encode_error
                 (read_error_prefix ++ path ++ lit ": " ++ exn_text e)),
        w).
Proof.
  intros H. unfold read_file_content, try_except, open_read, bind, print, ret.
  rewrite H, diagnostic_encodable.
  destruct (utf8_encodable path); reflexivity.
Qed.

Lemma read_file_content_run (path : str) (w : World) :
  utf8_encodable path = true ->
  read_file_content path w =
  (Ret (text_read w path),
   mkWorld (files w) (write_error w) (entropy w)
           (console w ++ read_diagnostic w path)).
Proof.
  intros Hp. unfold text_read, read_diagnostic.
  destruct (files w path) as [text|e] eqn:E.
  - rewrite (read_file_content_content path w text E), app_nil_r.
    destruct w; reflexivity.
  - now rewrite (read_file_content_failed path w e E), Hp.
Qed.

(** A run whose write succeeds: the document written and the lines
    printed. *)
Lemma run_completes (w : World) :
  write_error w output_file = None ->
  create_1c_processing_xml w =
  (Ret tt,
   mkWorld (fun p => if PyStr.eqb p output_file
                     then Content (xml_content (run_identifier w) (module_text w))
                     else files w p)
           (write_error w) (entropy w)
           (console w ++ diagnostics w ++ summary w)).
Proof.
  intros Hw. unfold create_1c_processing_xml, bind.
  rewrite read_file_content_run by reflexivity.
  rewrite read_file_content_run by reflexivity.
  cbn [files write_error entropy console].
  rewrite read_file_content_run by reflexivity.
  cbn [files write_error entropy console].
  unfold uuid4, open_write. cbn [files write_error entropy console].
  rewrite Hw. cbn [files write_error entropy console].
  set (full := full_module_code _ _ _).
  destruct (summary_encodable (PyUuid.uuid4 (entropy w)) (length full))
    as (H1 & H2 & H3).
  rewrite (print_run _ _ H1), (print_run _ _ H2), (print_run _ _ H3).
  cbn [files write_error entropy console].
  unfold diagnostics, summary, module_text, run_identifier, text_read, read_diagnostic.
  cbn [files write_error entropy console].
  rewrite <- !app_assoc. reflexivity.
Qed.

(** A run whose write fails stops there, with the exception of the write. *)
Lemma run_write_fails (w : World) (e : exn) :
  write_error w output_file = Some e ->
  create_1c_processing_xml w =
  (Raise e,
   mkWorld (files w) (write_error w) (entropy w) (console w ++ diagnostics w)).
Proof.
  intros Hw. unfold create_1c_processing_xml, bind.
  rewrite read_file_content_run by reflexivity.
  rewrite read_file_content_run by reflexivity.
  cbn [files write_error entropy console].
  rewrite read_file_content_run by reflexivity.
  cbn [files write_error entropy console].
  unfold uuid4, open_write. cbn [files write_error entropy console].
  rewrite Hw. unfold diagnostics, read_diagnostic.
  cbn [files write_error entropy console].
  rewrite <- !app_assoc. reflexivity.
Qed.


(** The output path holds the document after the write. *)
Lemma written_document (w : World) (doc : str) :
  files (mkWorld (fun p => if PyStr.eqb p output_file then Content doc else files w p)
                 (write_error w) (entropy w) (console w ++ diagnostics w ++ summary w))
        output_file
  = Content doc.
Proof.
  cbn [files]. now rewrite (proj2 (str_eqb_eq output_file output_file) eq_refl).
Qed.

(** * The claims of the specification *)

(** C1 (the code departs from the claim).  The document is claimed to hold,
    in its character-data section, the assembled text after escaping.  The
    script computes [escaped_module_code] and then fills the template with
    [full_module_code]: for the primary text [a<b] the section holds [a<b]
    itself, and not its escaped form [a&lt;b]. *)
Theorem C1_cdata_holds_unescaped_text :
  exists w' doc,
    create_1c_processing_xml (primary_only (lit "a<b")) = (Ret tt, w')
    /\ files w' output_file = Content doc
    /\ first_cdata doc = Some (lit "a<b")
    /\ escape_xml (lit "a<b") = lit "a&lt;b"
    /\ first_cdata doc <> Some (escape_xml (lit "a<b")).
Proof.
  rewrite run_completes by reflexivity.
  eexists. eexists. split; [reflexivity|]. split; [reflexivity|].
  assert (H : first_cdata
                (xml_content (run_identifier (primary_only (lit "a<b")))
                             (module_text (primary_only (lit "a<b"))))
              = Some (lit "a<b")).
  { change (module_text (primary_only (lit "a<b"))) with (lit "a<b").
    apply first_cdata_xml_content; [apply processing_uuid_hex|reflexivity]. }
  split; [exact H|]. split; [reflexivity|].
  rewrite H. discriminate.
Qed.

(** C2.  The secondary text changes nothing when the start marker does not
    occur in it, and nothing when no end marker occurs after the first start
    marker; when both occur, what is appended after the blank-line separator
    is the start marker, the text up to the first end marker after it, and
    that end marker. *)
Theorem C2_secondary_contribution (m e x : str) :
  (occurs_from start_marker e 0 = false ->
   full_module_code m e x = full_module_code m [] x)
  /\ (forall i,
        first_occurrence_from start_marker e 0 i = true ->
        occurs_from end_marker e (i + length start_marker) = false ->
        full_module_code m e x = full_module_code m [] x)
  /\ (forall i j,
        first_occurrence_from start_marker e 0 i = true ->
        first_occurrence_from end_marker e (i + length start_marker) j = true ->
        exists tail,
          full_module_code m [] x = m ++ tail
          /\ full_module_code m e x =
             m ++ (nl ++ nl)
               ++ (start_marker ++ substring e (i + length start_marker) j ++ end_marker)
               ++ tail
          /\ start_marker ++ substring e (i + length start_marker) j ++ end_marker
             = substring e i (j + length end_marker)).
Proof.
  split; [|split].
  - intros H. unfold full_module_code.
    rewrite (program_interface_code_no_start e H). reflexivity.
  - intros i Hi Hno. unfold full_module_code.
    rewrite (program_interface_code_no_end e i Hi Hno). reflexivity.
  - intros i j Hi Hj.
    assert (Hsub : substring e i (j + length end_marker) =
                   start_marker ++ substring e (i + length start_marker) j ++ end_marker).
    { apply first_occurrence_from_true in Hi as (_ & Hi & _).
      apply first_occurrence_from_true in Hj as (Hij & Hj & _).
      apply substring_between; assumption. }
    exists (if truthy x then (nl ++ nl) ++ x else []).
    unfold full_module_code.
    rewrite (program_interface_code_region e i j Hi Hj), Hsub.
    change (program_interface_code []) with (@None (list N)).
    split; [|split; [|reflexivity]].
    + destruct (truthy x); [reflexivity|]. now rewrite app_nil_r.
    + destruct (truthy x); rewrite <- ?app_assoc; [reflexivity|].
      now rewrite !app_nil_r.
Qed.

Lemma C2_secondary_contribution_witness :
  full_module_code (lit "M") sample_no_start (lit "E")
  = full_module_code (lit "M") [] (lit "E")
  /\ full_module_code (lit "M") sample_no_end (lit "E")
     = full_module_code (lit "M") [] (lit "E")
  /\ exists tail,
       full_module_code (lit "M") [] (lit "E") = lit "M" ++ tail
       /\ full_module_code (lit "M") sample_region (lit "E") =
          lit "M" ++ (nl ++ nl)
            ++ (start_marker ++ substring sample_region (8 + length start_marker) 63
                ++ end_marker)
            ++ tail
       /\ start_marker ++ substring sample_region (8 + length start_marker) 63
            ++ end_marker
          = substring sample_region 8 (63 + length end_marker).
Proof.
  split; [|split].
  - apply (proj1 (C2_secondary_contribution (lit "M") sample_no_start (lit "E"))).
    reflexivity.
  - apply (proj1 (proj2 (C2_secondary_contribution (lit "M") sample_no_end (lit "E")))
             8%nat); reflexivity.
  - apply (proj2 (proj2 (C2_secondary_contribution (lit "M") sample_region (lit "E")))
             8%nat 63%nat); reflexivity.
Defined.

(** C3.  The escaper rewrites the text in one pass, character by character:
    [&] to [&amp;], [<] to [&lt;], [>] to [&gt;], and every other character
    to itself; the ampersands of the entities it writes are not escaped
    again, quotation marks stay, and [a & b < c > d] becomes
    [a &amp; b &lt; c &gt; d]. *)
Theorem C3_escape_xml_entities :
  (forall s, escape_xml s = flat_map escape_char_spec s)
  /\ escape_xml (lit "&") = lit "&amp;"
  /\ escape_xml (lit "<") = lit "&lt;"
  /\ escape_xml (lit ">") = lit "&gt;"
  /\ (forall a b, escape_xml (a ++ dq ++ b) = escape_xml a ++ dq ++ escape_xml b)
  /\ (forall a b, escape_xml (a ++ lit "'" ++ b) = escape_xml a ++ lit "'" ++ escape_xml b)
  /\ escape_xml (lit "a & b < c > d") = lit "a &amp; b &lt; c &gt; d".
Proof.
  split; [exact escape_xml_flat_map|].
  repeat split; try reflexivity; intros a b; now rewrite !escape_xml_app.
Qed.

(** C4.  For every value of sixteen random bytes, the identifier has
    exactly 32 characters, each an upper-case hexadecimal digit, and no
    dash. *)
Theorem C4_processing_uuid_format (r : N) :
  (r < 2 ^ 128)%N ->
  length (processing_uuid (PyUuid.uuid4 r)) = 32%nat
  /\ Forall (fun c => is_upper_hex c = true) (processing_uuid (PyUuid.uuid4 r))
  /\ ~ In 45%N (processing_uuid (PyUuid.uuid4 r)).
Proof.
  intros Hr.
  pose proof (format_032x_length _ (uuid4_bound r Hr)) as Hlen.
  pose proof (processing_uuid_hex (PyUuid.uuid4 r)) as Hhex.
  split; [|split; [exact Hhex|]].
  - rewrite (processing_uuid_digits _ Hlen), length_map. exact Hlen.
  - intros Hin. rewrite Forall_forall in Hhex.
    specialize (Hhex _ Hin). discriminate.
Qed.

Lemma C4_processing_uuid_format_witness :
  (211111986739291122559526542806160113213 < 2 ^ 128)%N
  /\ length (processing_uuid (PyUuid.uuid4 211111986739291122559526542806160113213))
     = 32%nat
  /\ Forall (fun c => is_upper_hex c = true)
       (processing_uuid (PyUuid.uuid4 211111986739291122559526542806160113213))
  /\ ~ In 45%N (processing_uuid (PyUuid.uuid4 211111986739291122559526542806160113213)).
Proof.
  split; [reflexivity|].
  apply (C4_processing_uuid_format 211111986739291122559526542806160113213).
  reflexivity.
Defined.

(** C5.  When the secondary and the tertiary read give nothing, the module
    text is the primary text, with no separator; for the primary text [X]
    the character-data section of the document holds [X] and the last line
    of the summary reports the length 1. *)
Theorem C5_primary_only (w : World) :
  text_read w export_functions_path = [] ->
  text_read w extensions_path = [] ->
  module_text w = text_read w module_path
  /\ (files w module_path = Content (lit "X") ->
      write_error w output_file = None ->
      exists w' doc,
        create_1c_processing_xml w = (Ret tt, w')
        /\ files w' output_file = Content doc
        /\ first_cdata doc = Some (lit "X")
        /\ last (console w') [] = msg_size ++ lit "1" ++ msg_chars).
Proof.
  intros Hsec Hter.
  assert (Hm : module_text w = text_read w module_path).
  { unfold module_text. rewrite Hsec, Hter. reflexivity. }
  split; [exact Hm|].
  intros HX Hw. rewrite (run_completes w Hw).
  eexists. eexists. split; [reflexivity|].
  assert (Hmx : module_text w = lit "X").
  { rewrite Hm. unfold text_read. now rewrite HX. }
  split; [apply written_document|]. split.
  - rewrite Hmx.
    apply first_cdata_xml_content; [apply processing_uuid_hex|reflexivity].
  - cbn [console]. unfold summary. rewrite Hmx.
    change (PyStr.str_of_nat (length (lit "X"))) with (lit "1").
    set (l3 := msg_size ++ lit "1" ++ msg_chars).
    change [msg_created ++ output_file; msg_uuid ++ run_identifier w; l3]
      with ([msg_created ++ output_file; msg_uuid ++ run_identifier w] ++ [l3]).
    rewrite !app_assoc. apply last_last.
Qed.

Lemma C5_primary_only_witness :
  text_read (primary_only (lit "X")) export_functions_path = []
  /\ text_read (primary_only (lit "X")) extensions_path = []
  /\ module_text (primary_only (lit "X")) = text_read (primary_only (lit "X")) module_path
  /\ exists w' doc,
       create_1c_processing_xml (primary_only (lit "X")) = (Ret tt, w')
       /\ files w' output_file = Content doc
       /\ first_cdata doc = Some (lit "X")
       /\ last (console w') [] = msg_size ++ lit "1" ++ msg_chars.
Proof.
  split; [reflexivity|]. split; [reflexivity|].
  destruct (C5_primary_only (primary_only (lit "X")) eq_refl eq_refl) as [Hm Hrun].
  split; [exact Hm|]. apply Hrun; reflexivity.
Defined.




(** C7.  The module text is the primary text, then the separator and the
    region of the secondary text when there is one, then the separator and
    the tertiary text when that is not empty, whichever of them are
    there. *)
Theorem C7_assembly_order (m e x : str) :
  exists sec ter,
    full_module_code m e x = m ++ sec ++ ter
    /\ sec = match program_interface_code e with
             | Some code => nl ++ nl ++ code
             | None => []
             end
    /\ ter = match x with
             | [] => []
             | _ :: _ => nl ++ nl ++ x
             end.
Proof.
  unfold full_module_code.
  destruct (program_interface_code e) as [code|]; destruct x as [|c x];
    cbn [truthy]; eexists; eexists; (split; [|split; reflexivity]).
  - now rewrite app_nil_r.
  - now rewrite <- !app_assoc.
  - now rewrite !app_nil_r.
  - reflexivity.
Qed.

(** C8.  The escaper is not idempotent: on every text that holds [&], [<]
    or [>], escaping the escaped text gives a longer, different text. *)
Theorem C8_escape_xml_not_idempotent (s : str) :
  has_special s = true ->
  (length (escape_xml s) < length (escape_xml (escape_xml s)))%nat
  /\ escape_xml (escape_xml s) <> escape_xml s.
Proof.
  intros H.
  pose proof (escape_xml_grows _ (escape_xml_keeps_amp s H)) as Hlt.
  split; [exact Hlt|]. intros E. rewrite E in Hlt. lia.
Qed.

Lemma C8_escape_xml_not_idempotent_witness :
  has_special (lit "a & b") = true
  /\ (length (escape_xml (lit "a & b"))
      < length (escape_xml (escape_xml (lit "a & b"))))%nat
  /\ escape_xml (escape_xml (lit "a & b")) <> escape_xml (lit "a & b").
Proof.
  split; [reflexivity|].
  apply (C8_escape_xml_not_idempotent (lit "a & b")). reflexivity.
Defined.

(** C9.  A run whose write succeeds prints, after the diagnostics of its
    reads, three lines: the output path, the identifier, and the length of
    the module text as assembled, which is less than the length of its
    escaped form whenever the text holds a character the escaper rewrites. *)
Theorem C9_console_summary (w : World) :
  write_error w output_file = None ->
  exists w',
    create_1c_processing_xml w = (Ret tt, w')
    /\ console w' =
       console w ++ diagnostics w
       ++ [ msg_created ++ output_file;
            msg_uuid ++ processing_uuid (PyUuid.uuid4 (entropy w));
            msg_size ++ PyStr.str_of_nat (length (module_text w)) ++ msg_chars ]
    /\ Forall (fun line => exists path e,
                 line = read_error_prefix ++ path ++ lit ": " ++ exn_text e)
         (diagnostics w)
    /\ (has_special (module_text w) = true ->
        (length (module_text w) < length (escape_xml (module_text w)))%nat).
Proof.
  intros Hw. rewrite (run_completes w Hw).
  eexists. split; [reflexivity|]. split; [reflexivity|]. split.
  - unfold diagnostics, read_diagnostic.
    repeat (apply Forall_app; split);
      match goal with
      | |- Forall _ (match files w ?p with _ => _ end) =>
          destruct (files w p) as [t|e]; [constructor|];
          constructor; [now exists p, e|constructor]
      end.
  - apply escape_xml_longer.
Qed.

Lemma C9_console_summary_witness :
  write_error (primary_only (lit "a<b")) output_file = None
  /\ exists w',
       create_1c_processing_xml (primary_only (lit "a<b")) = (Ret tt, w')
       /\ console w' =
          console (primary_only (lit "a<b")) ++ diagnostics (primary_only (lit "a<b"))
          ++ [ msg_created ++ output_file;
               msg_uuid
               ++ processing_uuid (PyUuid.uuid4 (entropy (primary_only (lit "a<b"))));
               msg_size
               ++ PyStr.str_of_nat (length (module_text (primary_only (lit "a<b"))))
               ++ msg_chars ]
       /\ Forall (fun line => exists path e,
                    line = read_error_prefix ++ path ++ lit ": " ++ exn_text e)
            (diagnostics (primary_only (lit "a<b")))
       /\ (has_special (module_text (primary_only (lit "a<b"))) = true ->
           (length (module_text (primary_only (lit "a<b")))
            < length (escape_xml (module_text (primary_only (lit "a<b")))))%nat).
Proof.
  split; [reflexivity|].
  apply (C9_console_summary (primary_only (lit "a<b"))). reflexivity.
Defined.

(** C10.  The region extracted from the secondary text runs from the first
    occurrence of the start marker through the first occurrence of the end
    marker after it; a region nested inside therefore ends the extraction
    at its own end marker. *)
Theorem C10_region_first_markers :
  (forall e r,
     program_interface_code e = Some r ->
     exists i j,
       first_occurrence_from start_marker e 0 i = true
       /\ first_occurrence_from end_marker e (i + length start_marker) j = true
       /\ r = substring e i (j + length end_marker)
       /\ r = start_marker ++ substring e (i + length start_marker) j ++ end_marker)
  /\ program_interface_code sample_nested = Some sample_nested_region.
Proof.
  split; [|reflexivity].
  intros e r H.
  destruct (program_interface_code_cases e)
    as [[E _]|[(i & _ & _ & E)|(i & j & Hi & Hj & E)]]; try congruence.
  assert (Hr : r = substring e i (j + length end_marker)) by congruence.
  exists i, j.
  split; [exact Hi|]. split; [exact Hj|]. split; [exact Hr|].
  rewrite Hr.
  apply first_occurrence_from_true in Hi as (_ & Hi & _).
  apply first_occurrence_from_true in Hj as (Hij & Hj & _).
  apply substring_between; assumption.
Qed.

Lemma C10_region_first_markers_witness :
  program_interface_code sample_region
  = Some (substring sample_region 8 (63 + length end_marker))
  /\ exists i j,
       first_occurrence_from start_marker sample_region 0 i = true
       /\ first_occurrence_from end_marker sample_region (i + length start_marker) j
          = true
       /\ substring sample_region 8 (63 + length end_marker)
          = substring sample_region i (j + length end_marker)
       /\ substring sample_region 8 (63 + length end_marker)
          = start_marker ++ substring sample_region (i + length start_marker) j
            ++ end_marker.
Proof.
  split; [reflexivity|].
  apply (proj1 C10_region_first_markers sample_region). reflexivity.
Defined.

(** * Further properties of the script *)

(** ** Occurrences under concatenation *)

Lemma starts_with_app_more (sub x y : str) :
  PyStr.starts_with sub x = true -> PyStr.starts_with sub (x ++ y) = true.
Proof.
  intros H. apply starts_with_inv in H as [r ->].
  rewrite <- app_assoc. apply starts_with_app.
Qed.

Lemma occurs_at_app_r (sub s rest : str) (t : nat) :
  occurs_at sub s t = true -> occurs_at sub (s ++ rest) t = true.
Proof.
  intros H. apply occurs_at_true in H as [Ht H]. apply occurs_at_true.
  split; [rewrite length_app; lia|].
  rewrite skipn_app. replace (t - length s)%nat with 0%nat by lia.
  apply starts_with_app_more, H.
Qed.

Lemma occurs_at_shift (sub p s : str) (t : nat) :
  occurs_at sub (p ++ s) (length p + t) = occurs_at sub s t.
Proof.
  unfold occurs_at. rewrite skipn_app, skipn_all2 by lia.
  replace (length p + t - length p)%nat with t by lia. cbn [app].
  f_equal. rewrite length_app.
  destruct (Nat.leb_spec t (length s));
    destruct (Nat.leb_spec (length p + t) (length p + length s)); lia || reflexivity.
Qed.

(** ** Runs that fail, and what a run leaves alone *)

Lemma str_eqb_neq (a b : str) : a <> b -> PyStr.eqb a b = false.
Proof.
  intros H. destruct (PyStr.eqb a b) eqn:E; [|reflexivity].
  apply str_eqb_eq in E. contradiction.
Qed.

(** X1.  When the output file cannot be written, the run ends with the
    exception of the write: no summary line is printed after the read
    diagnostics and no file is changed. *)
Theorem X1_write_failure_aborts (w : World) (e : exn) :
  write_error w output_file = Some e ->
  exists w',
    create_1c_processing_xml w = (Raise e, w')
    /\ files w' = files w
    /\ console w' = console w ++ diagnostics w.
Proof.
  intros Hw. rewrite (run_write_fails w e Hw).
  eexists. split; [reflexivity|]. split; reflexivity.
Qed.

Lemma X1_write_failure_aborts_witness :
  write_error (unwritable (lit "X") (Exn (lit "[Errno 13] Permission denied")))
              output_file
  = Some (Exn (lit "[Errno 13] Permission denied"))
  /\ exists w',
       create_1c_processing_xml
         (unwritable (lit "X") (Exn (lit "[Errno 13] Permission denied")))
       = (Raise (Exn (lit "[Errno 13] Permission denied")), w')
       /\ files w'
          = files (unwritable (lit "X") (Exn (lit "[Errno 13] Permission denied")))
       /\ console w'
          = console (unwritable (lit "X") (Exn (lit "[Errno 13] Permission denied")))
            ++ diagnostics
                 (unwritable (lit "X") (Exn (lit "[Errno 13] Permission denied"))).
Proof.
  split; [reflexivity|].
  apply (X1_write_failure_aborts
           (unwritable (lit "X") (Exn (lit "[Errno 13] Permission denied")))).
  reflexivity.
Defined.

(** X2.  A run that completes changes one file only: the output path holds
    the rendered document, whatever it held before, and every other path,
    the write permissions and the random source are as they were. *)
Theorem X2_run_changes_only_output (w : World) :
  write_error w output_file = None ->
  exists w',
    create_1c_processing_xml w = (Ret tt, w')
    /\ files w' output_file
       = Content (xml_content (processing_uuid (PyUuid.uuid4 (entropy w)))
                              (module_text w))
    /\ (forall p, p <> output_file -> files w' p = files w p)
    /\ write_error w' = write_error w
    /\ entropy w' = entropy w.
Proof.
  intros Hw. rewrite (run_completes w Hw).
  eexists. split; [reflexivity|]. split; [apply written_document|].
  split; [|split; reflexivity].
  intros p Hp. cbn [files]. now rewrite (str_eqb_neq p output_file Hp).
Qed.

Lemma X2_run_changes_only_output_witness :
  write_error (primary_only (lit "X")) output_file = None
  /\ exists w',
       create_1c_processing_xml (primary_only (lit "X")) = (Ret tt, w')
       /\ files w' output_file
          = Content (xml_content
                       (processing_uuid
                          (PyUuid.uuid4 (entropy (primary_only (lit "X")))))
                       (module_text (primary_only (lit "X"))))
       /\ (forall p, p <> output_file ->
                     files w' p = files (primary_only (lit "X")) p)
       /\ write_error w' = write_error (primary_only (lit "X"))
       /\ entropy w' = entropy (primary_only (lit "X")).
Proof.
  split; [reflexivity|].
  apply (X2_run_changes_only_output (primary_only (lit "X"))). reflexivity.
Defined.


(** ** More on [escape_xml] *)

(** X4.  The escaped text holds no [<] and no [>]. *)
Theorem X4_escape_xml_no_angle_brackets (s : str) :
  ~ In 60%N (escape_xml s) /\ ~ In 62%N (escape_xml s).
Proof.
  rewrite escape_xml_flat_map.
  split; intros H; apply in_flat_map in H as (c & _ & H);
    unfold escape_char_spec in H;
    destruct (N.eqb_spec c 38);
      [cbn in H; intuition discriminate| |cbn in H; intuition discriminate|];
    destruct (N.eqb_spec c 60);
      try (cbn in H; intuition discriminate);
    destruct (N.eqb_spec c 62);
      try (cbn in H; intuition discriminate);
    cbn in H; intuition congruence.
Qed.

Lemma escape_char_spec_cases (c : N) :
  (c = 38%N /\ escape_char_spec c = [38; 97; 109; 112; 59]%N)
  \/ (c = 60%N /\ escape_char_spec c = [38; 108; 116; 59]%N)
  \/ (c = 62%N /\ escape_char_spec c = [38; 103; 116; 59]%N)
  \/ (c <> 38%N /\ c <> 60%N /\ c <> 62%N /\ escape_char_spec c = [c]).
Proof.
  unfold escape_char_spec.
  destruct (N.eqb_spec c 38); [left; now split|].
  destruct (N.eqb_spec c 60); [right; left; now split|].
  destruct (N.eqb_spec c 62); [right; right; left; now split|].
  right; right; right. repeat split; assumption.
Qed.

(** X5.  Escaping loses nothing: two texts with the same escaped form are
    the same text. *)
Theorem X5_escape_xml_injective (a b : str) :
  escape_xml a = escape_xml b -> a = b.
Proof.
  rewrite !escape_xml_flat_map. revert b.
  induction a as [|x a IH]; intros [|y b] H.
  - reflexivity.
  - cbn [flat_map] in H.
    destruct (escape_char_spec_cases y) as [[_ E]|[[_ E]|[[_ E]|(_ & _ & _ & E)]]];
      rewrite E in H; discriminate H.
  - cbn [flat_map] in H.
    destruct (escape_char_spec_cases x) as [[_ E]|[[_ E]|[[_ E]|(_ & _ & _ & E)]]];
      rewrite E in H; discriminate H.
  - cbn [flat_map] in H.
    set (A := flat_map escape_char_spec a) in *.
    set (B := flat_map escape_char_spec b) in *.
    assert (Hxy : x = y /\ A = B).
    { destruct (escape_char_spec_cases x)
        as [[Hx Ex]|[[Hx Ex]|[[Hx Ex]|(Hx1 & Hx2 & Hx3 & Ex)]]];
        destruct (escape_char_spec_cases y)
          as [[Hy Ey]|[[Hy Ey]|[[Hy Ey]|(Hy1 & Hy2 & Hy3 & Ey)]]];
        rewrite Ex, Ey in H; cbn [app] in H;
        try discriminate H;
        try (injection H as H; split; congruence);
        injection H; intros; subst; congruence. }
    destruct Hxy as [-> HAB]. f_equal. apply IH, HAB.
Qed.

Lemma X5_escape_xml_injective_witness :
  escape_xml (lit "a<b") = escape_xml (lit "a<b") /\ lit "a<b" = lit "a<b".
Proof.
  split; [reflexivity|].
  apply (X5_escape_xml_injective (lit "a<b") (lit "a<b")). reflexivity.
Defined.

(** X6.  The escaped text is longer than the text by four characters for
    each [&] and three for each [<] and each [>]. *)
Theorem X6_escape_xml_length (s : str) :
  length (escape_xml s) =
  (length s + 4 * count_occ N.eq_dec s 38%N
   + 3 * count_occ N.eq_dec s 60%N + 3 * count_occ N.eq_dec s 62%N)%nat.
Proof.
  rewrite escape_xml_flat_map.
  induction s as [|c s IH]; [reflexivity|].
  cbn [flat_map count_occ length]. rewrite length_app, IH.
  destruct (escape_char_spec_cases c)
    as [[-> E]|[[-> E]|[[-> E]|(H1 & H2 & H3 & E)]]]; rewrite E; cbn [length].
  - destruct (N.eq_dec 38 38); [|congruence].
    destruct (N.eq_dec 38 60); [discriminate|].
    destruct (N.eq_dec 38 62); [discriminate|]. lia.
  - destruct (N.eq_dec 60 38); [discriminate|].
    destruct (N.eq_dec 60 60); [|congruence].
    destruct (N.eq_dec 60 62); [discriminate|]. lia.
  - destruct (N.eq_dec 62 38); [discriminate|].
    destruct (N.eq_dec 62 60); [discriminate|].
    destruct (N.eq_dec 62 62); [|congruence]. lia.
  - destruct (N.eq_dec c 38); [congruence|].
    destruct (N.eq_dec c 60); [congruence|].
    destruct (N.eq_dec c 62); [congruence|]. lia.
Qed.

(** X7.  The texts the escaper leaves as they are are exactly those
    without [&], [<] and [>]. *)
Theorem X7_escape_xml_fixed_points (s : str) :
  escape_xml s = s <-> has_special s = false.
Proof.
  split.
  - intros E. destruct (has_special s) eqn:H; [|reflexivity].
    pose proof (escape_xml_longer s H) as Hlt. rewrite E in Hlt. lia.
  - rewrite escape_xml_flat_map.
    induction s as [|c s IH]; [reflexivity|].
    cbn [has_special existsb flat_map]. intros H.
    apply orb_false_iff in H as [Hc Hs].
    apply orb_false_iff in Hc as [Hc H62].
    apply orb_false_iff in Hc as [H38 H60].
    unfold escape_char_spec at 1. rewrite H38, H60, H62.
    cbn [app]. f_equal. apply IH, Hs.
Qed.

(** X8.  Escaping distributes over concatenation: escaping the parts of a
    text and joining them gives the escaped text. *)
Theorem X8_escape_xml_concat (parts : list str) :
  escape_xml (concat parts) = concat (map escape_xml parts).
Proof.
  induction parts as [|p parts IH]; [reflexivity|].
  cbn [concat map]. now rewrite escape_xml_app, IH.
Qed.

(** ** The document and the closing sequence *)

(** The proof of [first_cdata_xml_content], for any text after the first
    closing sequence. *)
Lemma first_cdata_section (u a rest : str) :
  Forall (fun c => is_upper_hex c = true) u ->
  first_occurrence_from cdata_close (a ++ cdata_close) 0 (length a) = true ->
  first_cdata (xml_prolog ++ u ++ xml_object_header ++ cdata_open
               ++ a ++ cdata_close ++ rest)
  = Some a.
Proof.
  intros Hu Ha. unfold first_cdata.
  set (R := a ++ cdata_close ++ rest).
  set (doc := xml_prolog ++ u ++ xml_object_header ++ cdata_open ++ R).
  set (b := (length xml_prolog + length u + length xml_object_header)%nat).
  assert (Hlen : length doc = (b + length cdata_open + length R)%nat).
  { unfold doc, b. rewrite !length_app. lia. }
  assert (Hopen : PyStr.find doc cdata_open 0 = Z.of_nat b).
  { change 0%Z with (Z.of_nat 0). rewrite find_of_nat.
    cbn [Nat.leb skipn]. unfold doc.
    rewrite find_scan_skip by (vm_compute; reflexivity).
    rewrite find_scan_skip.
    2:{ apply may_start_other_head.
        eapply Forall_impl; [|exact Hu]. intros x Hx.
        apply N.eqb_neq. intros <-. discriminate. }
    rewrite find_scan_skip by (vm_compute; reflexivity).
    rewrite find_scan_here by apply starts_with_app.
    f_equal. }
  rewrite Hopen.
  destruct (Z.ltb_spec (Z.of_nat b) 0); [lia|].
  unfold len. rewrite <- Nat2Z.inj_add.
  assert (Hskip : skipn (b + length cdata_open) doc = R).
  { unfold doc, b.
    rewrite (app_assoc xml_prolog), (app_assoc _ xml_object_header),
      (app_assoc _ cdata_open).
    rewrite <- !length_app. apply skipn_exact. }
  assert (Hclose : PyStr.find doc cdata_close (Z.of_nat (b + length cdata_open))
                   = Z.of_nat (b + length cdata_open + length a)).
  { rewrite find_of_nat.
    destruct (Nat.leb_spec (b + length cdata_open) (length doc)); [|lia].
    rewrite Hskip. unfold R. rewrite find_scan_first by exact Ha.
    reflexivity. }
  rewrite Hclose.
  destruct (Z.ltb_spec (Z.of_nat (b + length cdata_open + length a)) 0); [lia|].
  f_equal. rewrite slice_of_nat.
  - unfold substring. rewrite Hskip. unfold R.
    replace (b + length cdata_open + length a - (b + length cdata_open))%nat
      with (length a) by lia.
    apply firstn_exact.
  - rewrite Hlen. unfold R. rewrite length_app. lia.
Qed.

(** A text without the closing sequence cannot complete one with the
    closing sequence that follows it. *)
Lemma cdata_close_first (full : str) :
  occurs_from cdata_close full 0 = false ->
  first_occurrence_from cdata_close (full ++ cdata_close) 0 (length full) = true.
Proof.
  intros Hno. rewrite occurs_from_false in Hno.
  apply first_occurrence_from_true. split; [lia|]. split.
  - pose proof (occurs_at_app full cdata_close []) as H.
    now rewrite app_nil_r in H.
  - intros t Ht. specialize (Hno t). unfold occurs_at in *.
    rewrite skipn_app. replace (t - length full)%nat with 0%nat by lia.
    cbn [skipn].
    assert (Hl : (0 < length (skipn t full))%nat) by (rewrite length_skipn; lia).
    destruct (Nat.leb_spec t (length full)) as [Hle|]; [|lia].
    cbn [andb] in Hno. specialize (Hno ltac:(lia)).
    destruct (Nat.leb_spec t (length (full ++ cdata_close))) as [_|Hgt];
      [|reflexivity].
    cbn [andb]. change cdata_close with [93; 93; 62]%N in *.
    destruct (skipn t full) as [|x [|y [|z r]]].
    + simpl in Hl. lia.
    + cbn [app PyStr.starts_with].
      destruct (93 =? x)%N; reflexivity.
    + cbn [app PyStr.starts_with].
      destruct (93 =? x)%N; destruct (93 =? y)%N; reflexivity.
    + rewrite starts_with_app_r by (simpl; lia). exact Hno.
Qed.

(** The first occurrence of [sub] in a text stays the first one when the
    text is cut right after it. *)
Lemma first_occurrence_cut (sub s : str) (k : nat) :
  first_occurrence_from sub s 0 k = true ->
  exists rest,
    s = firstn k s ++ sub ++ rest
    /\ first_occurrence_from sub (firstn k s ++ sub) 0 (length (firstn k s)) = true.
Proof.
  intros H. apply first_occurrence_from_true in H as (_ & Hat & Hmin).
  destruct (occurs_at_split sub s k Hat) as (rest & Hs & Hl).
  exists rest. split; [exact Hs|].
  apply first_occurrence_from_true. split; [lia|]. split.
  - pose proof (occurs_at_app (firstn k s) sub []) as H.
    now rewrite app_nil_r in H.
  - intros t Ht. rewrite Hl in Ht.
    destruct (occurs_at sub (firstn k s ++ sub) t) eqn:E; [|reflexivity].
    apply (occurs_at_app_r sub _ rest) in E.
    rewrite <- app_assoc, <- Hs in E. rewrite Hmin in E by lia. discriminate.
Qed.

(** X9.  When the closing sequence of a character-data section does not
    occur in the module text, a reader of the written document finds the
    module text, character for character, in its first section. *)
Theorem X9_document_round_trip (w : World) :
  write_error w output_file = None ->
  occurs_from cdata_close (module_text w) 0 = false ->
  exists w' doc,
    create_1c_processing_xml w = (Ret tt, w')
    /\ files w' output_file = Content doc
    /\ first_cdata doc = Some (module_text w).
Proof.
  intros Hw Hno. rewrite (run_completes w Hw).
  eexists. eexists. split; [reflexivity|]. split; [apply written_document|].
  apply first_cdata_xml_content; [apply processing_uuid_hex|].
  apply cdata_close_first, Hno.
Qed.

Lemma X9_document_round_trip_witness :
  write_error (primary_only (lit "If a<b Then c[i] = d]; EndIf")) output_file = None
  /\ occurs_from cdata_close
       (module_text (primary_only (lit "If a<b Then c[i] = d]; EndIf"))) 0 = false
  /\ exists w' doc,
       create_1c_processing_xml (primary_only (lit "If a<b Then c[i] = d]; EndIf"))
       = (Ret tt, w')
       /\ files w' output_file = Content doc
       /\ first_cdata doc
          = Some (module_text (primary_only (lit "If a<b Then c[i] = d]; EndIf"))).
Proof.
  split; [reflexivity|]. split; [reflexivity|].
  apply (X9_document_round_trip (primary_only (lit "If a<b Then c[i] = d]; EndIf")));
    reflexivity.
Defined.

(** X10.  A closing sequence in the module text is written as it is: the
    first character-data section of the document then ends there, and holds
    the module text only up to its first closing sequence. *)
Theorem X10_closing_sequence_cuts_section (w : World) (k : nat) :
  write_error w output_file = None ->
  first_occurrence_from cdata_close (module_text w) 0 k = true ->
  exists w' doc,
    create_1c_processing_xml w = (Ret tt, w')
    /\ files w' output_file = Content doc
    /\ first_cdata doc = Some (firstn k (module_text w)).
Proof.
  intros Hw Hk. rewrite (run_completes w Hw).
  eexists. eexists. split; [reflexivity|]. split; [apply written_document|].
  destruct (first_occurrence_cut _ _ _ Hk) as (rest & Hs & Hfirst).
  unfold xml_content. rewrite Hs at 1. rewrite <- !app_assoc.
  apply first_cdata_section; [apply processing_uuid_hex|exact Hfirst].
Qed.

Lemma X10_closing_sequence_cuts_section_witness :
  write_error (primary_only (lit "a]]>b")) output_file = None
  /\ first_occurrence_from cdata_close (module_text (primary_only (lit "a]]>b"))) 0 1
     = true
  /\ exists w' doc,
       create_1c_processing_xml (primary_only (lit "a]]>b")) = (Ret tt, w')
       /\ files w' output_file = Content doc
       /\ first_cdata doc = Some (firstn 1 (module_text (primary_only (lit "a]]>b")))).
Proof.
  split; [reflexivity|]. split; [reflexivity|].
  apply (X10_closing_sequence_cuts_section (primary_only (lit "a]]>b")) 1);
    reflexivity.
Defined.

(** ** The region, extracted again *)

(** X13.  The region extracted from a secondary text is the region
    extracted from that region itself: the text before the start marker and
    after the end marker has no part in the module text. *)
Theorem X13_region_extraction_idempotent (e r : str) :
  program_interface_code e = Some r ->
  program_interface_code r = Some r
  /\ forall m x, full_module_code m r x = full_module_code m e x.
Proof.
  intros H.
  assert (Hr : program_interface_code r = Some r).
  { destruct (program_interface_code_cases e)
      as [[E _]|[(i & _ & _ & E)|(i & j & Hi & Hj & E)]]; try congruence.
    assert (Hsub : r = substring e i (j + length end_marker)) by congruence.
    apply first_occurrence_from_true in Hi as (_ & Hi & _).
    apply first_occurrence_from_true in Hj as (Hij & Hj & Hmin).
    pose proof (substring_between _ _ _ _ _ Hi Hj Hij) as Hshape.
    rewrite <- Hsub in Hshape.
    set (mid := substring e (i + length start_marker) j) in *.
    assert (Hmid : length mid = (j - (i + length start_marker))%nat).
    { unfold mid, substring. apply firstn_length_le. rewrite length_skipn.
      apply occurs_at_true in Hj as [Hj _]. lia. }
    assert (Hdec : exists post, e = firstn i e ++ r ++ post
                                /\ length (firstn i e) = i).
    { exists (skipn (j + length end_marker - i) (skipn i e)). split.
      - rewrite Hsub. unfold substring. now rewrite !firstn_skipn.
      - apply firstn_length_le. apply occurs_at_true in Hi as [Hi _]. exact Hi. }
    destruct Hdec as (post & Hdec & Hpre).
    rewrite (program_interface_code_region r 0 (length start_marker + length mid)).
    - f_equal. unfold substring. cbn [skipn]. rewrite Nat.sub_0_r.
      transitivity (firstn (length r) r); [|apply firstn_all].
      f_equal. rewrite Hshape, !length_app. lia.
    - apply first_occurrence_from_true. split; [lia|]. split; [|intros t Ht; lia].
      rewrite Hshape. apply (occurs_at_app [] start_marker).
    - apply first_occurrence_from_true. split; [lia|]. split.
      + rewrite Hshape, app_assoc, <- length_app.
        pose proof (occurs_at_app (start_marker ++ mid) end_marker []) as Ho.
        now rewrite app_nil_r in Ho.
      + intros t Ht.
        destruct (occurs_at end_marker r t) eqn:Eo; [|reflexivity].
        apply (occurs_at_app_r _ _ post) in Eo.
        rewrite <- (occurs_at_shift end_marker (firstn i e)) in Eo.
        rewrite <- Hdec, Hpre in Eo.
        rewrite Hmin in Eo by lia. discriminate. }
  split; [exact Hr|].
  intros m x. unfold full_module_code. now rewrite Hr, H.
Qed.

Lemma X13_region_extraction_idempotent_witness :
  program_interface_code sample_nested = Some sample_nested_region
  /\ program_interface_code sample_nested_region = Some sample_nested_region
  /\ forall m x,
       full_module_code m sample_nested_region x = full_module_code m sample_nested x.
Proof.
  split; [reflexivity|].
  apply (X13_region_extraction_idempotent sample_nested sample_nested_region).
  reflexivity.
Defined.

(** ** The identifier as a number *)

Lemma upper_digit_value_upper (c : N) :
  is_lower_hex c = true -> upper_digit_value (PyStr.upper_char c) = digit_value c.
Proof.
  unfold is_lower_hex, upper_digit_value, digit_value, PyStr.upper_char. intros H.
  apply orb_true_iff in H.
  destruct H as [H|H]; apply andb_true_iff in H as [H1 H2];
    apply N.leb_le in H1, H2.
  - destruct (N.leb_spec 97 c); [lia|]. cbn [andb].
    destruct (N.ltb_spec c 58); [reflexivity|lia].
  - destruct (N.leb_spec 97 c); [|lia]. destruct (N.leb_spec c 122); [|lia].
    cbn [andb].
    destruct (N.ltb_spec (c - 32) 58); [lia|].
    destruct (N.ltb_spec c 58); lia.
Qed.

Lemma identifier_value_upper (h : str) :
  Forall (fun c => is_lower_hex c = true) h ->
  identifier_value (map PyStr.upper_char h) = hex_value h.
Proof.
  unfold identifier_value, hex_value. intros H. generalize 0%N.
  induction H as [|c h Hc Hh IH]; intros a; [reflexivity|].
  cbn [map fold_left]. rewrite (upper_digit_value_upper c Hc). apply IH.
Qed.

Lemma hex_value_zeros (k : nat) (h : str) :
  hex_value (repeat 48%N k ++ h) = hex_value h.
Proof.
  unfold hex_value. rewrite fold_left_app. f_equal.
  induction k as [|k IH]; [reflexivity|]. cbn [repeat fold_left]. exact IH.
Qed.

(** X11.  The identifier is the drawn 128-bit number written in upper-case
    hexadecimal: reading it back gives the number, so that removing the
    dashes and raising the letters loses nothing of it. *)
Theorem X11_identifier_round_trip (u : N) :
  (u < 2 ^ 128)%N -> identifier_value (processing_uuid u) = u.
Proof.
  intros H.
  rewrite (processing_uuid_digits u (format_032x_length u H)).
  rewrite (identifier_value_upper _ (format_032x_lower u)).
  unfold PyStr.format_032x. rewrite hex_value_zeros. apply to_hex_value.
Qed.

Lemma X11_identifier_round_trip_witness :
  (PyUuid.uuid4 211111986739291122559526542806160113213 < 2 ^ 128)%N
  /\ identifier_value
       (processing_uuid (PyUuid.uuid4 211111986739291122559526542806160113213))
     = PyUuid.uuid4 211111986739291122559526542806160113213.
Proof.
  split; [reflexivity|].
  apply (X11_identifier_round_trip
           (PyUuid.uuid4 211111986739291122559526542806160113213)).
  reflexivity.
Defined.

(** ** The version and the variant of the identifier *)

Lemma nibble_succ (n : N) (i : nat) : nibble n (S i) = nibble (n / 16) i.
Proof.
  unfold nibble. rewrite Nat2N.inj_succ, N.pow_succ_r', N.Div0.div_div.
  reflexivity.
Qed.

Lemma nibble_small (n : N) (i : nat) :
  (n < 16 ^ N.of_nat i)%N -> nibble n i = 0%N.
Proof. intros H. unfold nibble. now rewrite N.div_small. Qed.

(** The digits [hex_scan] writes are the hexadecimal digits of the number,
    the least significant one last, and the number has no others. *)
Lemma hex_scan_digits (fuel : nat) : forall n acc,
  (n < 2 ^ N.of_nat fuel)%N ->
  exists ds,
    PyStr.hex_scan fuel n acc = ds ++ acc
    /\ (forall i, (i < length ds)%nat ->
          nth (length ds - 1 - i) ds 48%N = PyStr.hex_digit (nibble n i))
    /\ (forall i, (length ds <= i)%nat -> nibble n i = 0%N).
Proof.
  induction fuel as [|fuel IH]; intros n acc Hn.
  - exists []. split; [reflexivity|]. split; [simpl; lia|].
    intros i _. apply nibble_small.
    pose proof (N.pow_nonzero 16 (N.of_nat i)). simpl in Hn. lia.
  - cbn [PyStr.hex_scan].
    destruct (N.eqb_spec (n / 16) 0) as [E|E].
    + exists [PyStr.hex_digit (n mod 16)]. split; [reflexivity|]. split.
      * intros i Hi. cbn [length] in Hi. replace i with 0%nat by lia.
        cbn [length Nat.sub nth]. unfold nibble.
        now rewrite N.pow_0_r, N.div_1_r.
      * intros [|i] Hi; [simpl in Hi; lia|].
        rewrite nibble_succ, E. apply nibble_small.
        pose proof (N.pow_nonzero 16 (N.of_nat i)). lia.
    + destruct (IH (n / 16)%N (PyStr.hex_digit (n mod 16) :: acc))
        as (ds & Hds & Hnth & Hzero).
      { apply N.Div0.div_lt_upper_bound.
        rewrite Nat2N.inj_succ, N.pow_succ_r' in Hn.
        pose proof (N.pow_nonzero 2 (N.of_nat fuel)). lia. }
      exists (ds ++ [PyStr.hex_digit (n mod 16)]). split.
      * rewrite Hds, <- app_assoc. reflexivity.
      * rewrite length_app. cbn [length]. split.
        -- intros [|i] Hi.
           ++ replace (length ds + 1 - 1 - 0)%nat with (length ds) by lia.
              rewrite nth_middle. unfold nibble.
              now rewrite N.pow_0_r, N.div_1_r.
           ++ rewrite nibble_succ, <- Hnth by lia.
              rewrite app_nth1 by lia. f_equal. lia.
        -- intros [|i] Hi; [lia|]. rewrite nibble_succ. apply Hzero. lia.
Qed.

Lemma format_032x_nth (n : N) (i : nat) :
  (n < 2 ^ 128)%N -> (i < 32)%nat ->
  nth (31 - i) (PyStr.format_032x n) 48%N = PyStr.hex_digit (nibble n i).
Proof.
  intros Hn Hi. pose proof (format_032x_length n Hn) as Hlen.
  unfold PyStr.format_032x, PyStr.to_hex in *.
  destruct (hex_scan_digits (S (N.to_nat (N.size n))) n []) as (ds & Hds & Hnth & Hz).
  { rewrite Nat2N.inj_succ, N2Nat.id, N.pow_succ_r'.
    pose proof (N.size_gt n). lia. }
  rewrite Hds, app_nil_r in *. rewrite length_app, repeat_length in Hlen.
  destruct (Nat.lt_ge_cases i (length ds)) as [Hlt|Hge].
  - rewrite app_nth2 by (rewrite repeat_length; lia).
    rewrite repeat_length, <- Hnth by exact Hlt. f_equal. lia.
  - rewrite app_nth1 by (rewrite repeat_length; lia).
    rewrite nth_repeat, Hz by exact Hge. reflexivity.
Qed.

Lemma processing_uuid_nth (u : N) (k : nat) :
  (u < 2 ^ 128)%N -> (k < 32)%nat ->
  nth_error (processing_uuid u) k
  = Some (PyStr.upper_char (PyStr.hex_digit (nibble u (31 - k)))).
Proof.
  intros Hu Hk. pose proof (format_032x_length u Hu) as Hlen.
  rewrite (processing_uuid_digits u Hlen).
  rewrite (nth_error_nth' _ 48%N) by (rewrite length_map; lia).
  f_equal. change 48%N with (PyStr.upper_char 48) at 1.
  rewrite map_nth. f_equal.
  rewrite <- format_032x_nth by (exact Hu || lia). f_equal. lia.
Qed.

Lemma nibble_bits (n : N) (i : nat) :
  nibble n i = N.land (N.shiftr n (4 * N.of_nat i)) (N.ones 4).
Proof.
  unfold nibble. rewrite N.land_ones, N.shiftr_div_pow2.
  change 16%N with (2 ^ 4)%N. now rewrite <- N.pow_mul_r.
Qed.

(** A number below 16 is known by its four low bits. *)
Lemma nibble_of_bits (n : N) (i : nat) (b3 b2 b1 b0 : bool) :
  N.testbit n (4 * N.of_nat i + 3) = b3 ->
  N.testbit n (4 * N.of_nat i + 2) = b2 ->
  N.testbit n (4 * N.of_nat i + 1) = b1 ->
  N.testbit n (4 * N.of_nat i) = b0 ->
  nibble n i = (8 * N.b2n b3 + 4 * N.b2n b2 + 2 * N.b2n b1 + N.b2n b0)%N.
Proof.
  intros H3 H2 H1 H0. rewrite nibble_bits. apply N.bits_inj. intros k.
  rewrite N.land_spec, N.shiftr_spec'.
  destruct (N.ltb_spec k 4) as [Hk|Hk].
  - rewrite N.ones_spec_low, andb_true_r by exact Hk.
    assert (Hcase : k = 0%N \/ k = 1%N \/ k = 2%N \/ k = 3%N) by lia.
    destruct Hcase as [ -> | [ -> | [ -> | -> ]]];
      rewrite ?N.add_0_l, 1?N.add_comm, ?H0, ?H1, ?H2, ?H3;
      destruct b3, b2, b1, b0; reflexivity.
  - rewrite N.ones_spec_high, andb_false_r by exact Hk.
    symmetry. apply N.bits_above_log2.
    destruct b3, b2, b1, b0; cbn; lia.
Qed.

Lemma uuid4_testbit (r p : N) :
  N.testbit (PyUuid.uuid4 r) p =
  ((N.testbit r p && negb (N.testbit (N.shiftl 49152 48) p)
    || N.testbit (N.shiftl 32768 48) p)
   && negb (N.testbit (N.shiftl 61440 64) p))
  || N.testbit (N.shiftl 4 76) p.
Proof.
  unfold PyUuid.uuid4.
  now rewrite !N.lor_spec, !N.ldiff_spec, !N.lor_spec, !N.ldiff_spec.
Qed.

(** X12.  The identifier is that of a version 4 UUID of the standard
    variant: its thirteenth character is [4] and its seventeenth is one of
    [8], [9], [A] and [B], whatever bytes are drawn. *)
Theorem X12_identifier_version_and_variant (r : N) :
  (r < 2 ^ 128)%N ->
  nth_error (processing_uuid (PyUuid.uuid4 r)) 12 = Some 52%N
  /\ exists c,
       nth_error (processing_uuid (PyUuid.uuid4 r)) 16 = Some c
       /\ In c [56; 57; 65; 66]%N.
Proof.
  intros Hr. pose proof (uuid4_bound r Hr) as Hu.
  rewrite !processing_uuid_nth by (exact Hu || lia).
  change (31 - 12)%nat with 19%nat. change (31 - 16)%nat with 15%nat.
  split.
  - rewrite (nibble_of_bits (PyUuid.uuid4 r) 19 false true false false);
      [reflexivity| | | |];
      rewrite uuid4_testbit;
      match goal with |- context [N.testbit r ?p] => destruct (N.testbit r p) end;
      reflexivity.
  - eexists. split; [reflexivity|].
    rewrite (nibble_of_bits (PyUuid.uuid4 r) 15 true false
               (N.testbit r 61) (N.testbit r 60));
      [destruct (N.testbit r 61), (N.testbit r 60); cbn; tauto| | | |];
      rewrite uuid4_testbit;
      match goal with
      | |- context [N.testbit r ?p] =>
          change p with 63%N || change p with 62%N
          || change p with 61%N || change p with 60%N
      end;
      match goal with |- context [N.testbit r ?p] => destruct (N.testbit r p) end;
      reflexivity.
Qed.

Lemma X12_identifier_version_and_variant_witness :
  (211111986739291122559526542806160113213 < 2 ^ 128)%N
  /\ nth_error (processing_uuid (PyUuid.uuid4 211111986739291122559526542806160113213))
       12 = Some 52%N
  /\ exists c,
       nth_error (processing_uuid
                    (PyUuid.uuid4 211111986739291122559526542806160113213)) 16
       = Some c
       /\ In c [56; 57; 65; 66]%N.
Proof.
  split; [reflexivity|].
  apply (X12_identifier_version_and_variant 211111986739291122559526542806160113213).
  reflexivity.
Defined.

(** ** Running again *)

(** X14.  A run that completes leaves its three input files as they were,
    so that a second run assembles the same module text. *)
Theorem X14_run_keeps_its_inputs (w : World) :
  write_error w output_file = None ->
  exists w',
    create_1c_processing_xml w = (Ret tt, w')
    /\ files w' module_path = files w module_path
    /\ files w' extensions_path = files w extensions_path
    /\ files w' export_functions_path = files w export_functions_path
    /\ module_text w' = module_text w.
Proof.
  intros Hw. rewrite (run_completes w Hw).
  eexists. split; [reflexivity|].
  assert (H1 : PyStr.eqb module_path output_file = false) by reflexivity.
  assert (H2 : PyStr.eqb extensions_path output_file = false) by reflexivity.
  assert (H3 : PyStr.eqb export_functions_path output_file = false) by reflexivity.
  unfold module_text, text_read. cbn [files]. rewrite H1, H2, H3.
  repeat split; reflexivity.
Qed.

Lemma X14_run_keeps_its_inputs_witness :
  write_error (primary_only (lit "X")) output_file = None
  /\ exists w',
       create_1c_processing_xml (primary_only (lit "X")) = (Ret tt, w')
       /\ files w' module_path = files (primary_only (lit "X")) module_path
       /\ files w' extensions_path = files (primary_only (lit "X")) extensions_path
       /\ files w' export_functions_path
          = files (primary_only (lit "X")) export_functions_path
       /\ module_text w' = module_text (primary_only (lit "X")).
Proof.
  split; [reflexivity|].
  apply (X14_run_keeps_its_inputs (primary_only (lit "X"))). reflexivity.
Defined.
